(** * DeFi analytics gateway: price oracle, Uniswap V3 helpers, risk metrics

    A shallow embedding of the JavaScript sources

      - [src/utils/priceOracle.js]   (class [PriceOracle])
      - [src/utils/contract.js]      (class [ContractUtils])
      - the Uniswap V3 integration   (class [UniswapAnalytics])
      - the portfolio engine         (class [PortfolioAnalytics])

    together with the properties their specification states about them.

    Conventions of the embedding.
      - A JavaScript string is a [string]: the bytes of its UTF-8
        encoding, so that an ASCII character is one byte below 128.  On
        ASCII strings ([JS.isAscii]) case mapping and comparison are
        computed here.  What JavaScript does with a string that has a
        character outside ASCII (Unicode case mapping, the order of UTF-16
        code units) is not tabulated: it is a parameter, [JS.Unicode], of
        every function that changes the case of a string or compares two,
        together with the few laws about it that the proofs use.  Examples
        are run with the instance [JS.asciiOnly]; they use ASCII strings,
        on which every instance gives the same result.
      - A [Map] is a [gmap].  A plain object used as a dictionary (a JSON
        payload, the object a method builds and returns) is a [gmap] over
        its own keys together with what it inherits from
        [Object.prototype]: reading a name that is not an own key yields
        the inherited value when there is one ([JS.inherits]), and
        assigning to [__proto__] creates no key.
      - JavaScript numbers are IEEE 754 binary64 values ([PrimFloat.float]);
        integers that the code only compares or subtracts (clock readings,
        ticks) are [Z].  An [ethers.BigNumber] is an unbounded [Z].
      - An [async] method that rejects, and a synchronous one that throws,
        both yield [Throw e]; normal completion yields [Ok v].  What is
        thrown is an [Error] object.
      - The outside world is passed in: the HTTP client ([axios.get]), the
        clock ([Date.now()]), the chain RPC and the ethers hashing/encoding
        primitives are parameters of the functions that use them.
      - A method call runs from its first statement to its last without
        another call on the same instance running in between. *)

From Stdlib Require Import ZArith NArith Strings.String Strings.Ascii.
From Stdlib Require Import Numbers.DecimalString DecimalN DecimalPos DecimalFacts.
From Stdlib Require Import Floats.PrimFloat Floats.SpecFloat Floats.FloatOps.
From stdpp Require Import base option list gmap strings.

Local Open Scope string_scope.
Local Open Scope Z_scope.
Local Open Scope list_scope.

(* ===================================================================== *)
(** ** Thrown values and results                                          *)
(* ===================================================================== *)

Inductive error : Type :=
  | TypeError (msg : string)        (* property access on [undefined] *)
  | ArgumentError (msg : string)    (* ethers argument validation      *)
  | NumericFault (msg : string)     (* ethers BigNumber faults         *)
  | UpstreamError (msg : string)    (* rejection of the HTTP client    *)
  | RpcError (msg : string).        (* rejection of a contract read    *)

Inductive result (A : Type) : Type :=
  | Ok (a : A)
  | Throw (e : error).

Arguments Ok {A} a.
Arguments Throw {A} e.

Definition bind {A B : Type} (r : result A) (k : A -> result B) : result B :=
  match r with
  | Ok a => k a
  | Throw e => Throw e
  end.

Notation "'do' x <- r ; k" := (bind r (fun x => k))
  (at level 10, x name, r at level 100, k at level 200).

(* ===================================================================== *)
(** ** JavaScript string primitives                                       *)
(* ===================================================================== *)

Module JS.

Definition isUpperAscii (c : ascii) : bool :=
  let n := N_of_ascii c in (65 <=? n)%N && (n <=? 90)%N.

Definition isLowerAscii (c : ascii) : bool :=
  let n := N_of_ascii c in (97 <=? n)%N && (n <=? 122)%N.

Definition toLowerChar (c : ascii) : ascii :=
  if isUpperAscii c then ascii_of_N (N_of_ascii c + 32) else c.

Definition toUpperChar (c : ascii) : ascii :=
  if isLowerAscii c then ascii_of_N (N_of_ascii c - 32) else c.

Fixpoint mapChars (f : ascii -> ascii) (s : string) : string :=
  match s with
  | EmptyString => EmptyString
  | String c rest => String (f c) (mapChars f rest)
  end.

(** The strings made of ASCII characters only. *)
Definition isAsciiChar (c : ascii) : bool := (N_of_ascii c <? 128)%N.

Fixpoint isAscii (s : string) : bool :=
  match s with
  | EmptyString => true
  | String c rest => isAsciiChar c && isAscii rest
  end.

(** Case mapping of the ASCII letters, every other byte left as it is:
    what [toLowerCase] and [toUpperCase] do to an ASCII string. *)
Definition asciiLower (s : string) : string := mapChars toLowerChar s.
Definition asciiUpper (s : string) : string := mapChars toUpperChar s.

(** What JavaScript does with strings that are not ASCII.  [lowerOther s]
    and [upperOther s] are [s.toLowerCase()] and [s.toUpperCase()] for a
    string [s] with a character outside ASCII, and [ltOther a b] is
    [a < b] when [a] or [b] is such a string.  Their values are not
    tabulated; the proofs rest on four facts about them.  Unicode case
    mapping gives the same result whatever the case of the ASCII letters of
    a string: it maps character by character, and its one context rule (a
    final sigma) only asks whether the neighbours are cased letters.  And
    [<] is a strict total order on strings. *)
Class Unicode : Type := {
  lowerOther : string -> string;
  upperOther : string -> string;
  ltOther : string -> string -> bool;
  lowerOther_variant :
    forall s t, asciiLower s = asciiLower t -> lowerOther s = lowerOther t;
  upperOther_variant :
    forall s t, asciiLower s = asciiLower t -> upperOther s = upperOther t;
  ltOther_asym :
    forall a b, ltOther a b = true -> ltOther b a = false;
  ltOther_total :
    forall a b, ltOther a b = false -> ltOther b a = false -> a = b
}.

(** [String.prototype.toLowerCase] and [toUpperCase]. *)
Definition toLowerCase {U : Unicode} (s : string) : string :=
  if isAscii s then asciiLower s else lowerOther s.

Definition toUpperCase {U : Unicode} (s : string) : string :=
  if isAscii s then asciiUpper s else upperOther s.

(** The relational operator [<] on two strings: lexicographic on code
    units, which on ASCII strings are the bytes. *)
Definition lt {U : Unicode} (a b : string) : bool :=
  if isAscii a && isAscii b then String.ltb a b else ltOther a b.

(** [String.prototype.trim] (used by the specification only): drops the
    leading and trailing blanks, tabs and line breaks. *)
Definition isSpace (c : ascii) : bool :=
  let n := N_of_ascii c in
  (n =? 32)%N || ((9 <=? n)%N && (n <=? 13)%N).

Fixpoint trimStart (s : string) : string :=
  match s with
  | EmptyString => EmptyString
  | String c rest => if isSpace c then trimStart rest else s
  end.

Fixpoint trimEnd (s : string) : string :=
  match s with
  | EmptyString => EmptyString
  | String c rest =>
      match trimEnd rest with
      | EmptyString => if isSpace c then EmptyString else String c EmptyString
      | t => String c t
      end
  end.

Definition trim (s : string) : string := trimEnd (trimStart s).

(** [Array.prototype.join]. *)
Definition join (sep : string) (l : list string) : string :=
  String.concat sep l.

(** The property names that every plain object inherits from
    [Object.prototype]. *)
Definition inheritedNames : list string :=
  [ "constructor"; "__defineGetter__"; "__defineSetter__"; "hasOwnProperty";
    "__lookupGetter__"; "__lookupSetter__"; "isPrototypeOf";
    "propertyIsEnumerable"; "toString"; "valueOf"; "__proto__";
    "toLocaleString" ].

Definition inherits (name : string) : bool :=
  bool_decide (name ∈ inheritedNames).

(** The instance that examples are run with: strings outside ASCII keep
    their other bytes and compare byte by byte. *)
#[global] Instance asciiOnly : Unicode.
Proof.
  refine {| lowerOther := asciiLower;
            upperOther := asciiUpper;
            ltOther := String.ltb |}.
  - intros s t H. exact H.
  - intros s t H.
    assert (Hup : forall r, asciiUpper (asciiLower r) = asciiUpper r).
    { unfold asciiUpper, asciiLower.
      induction r as [|c r IH]; cbn; [reflexivity|]. rewrite IH. f_equal.
      destruct c as [[] [] [] [] [] [] [] []]; reflexivity. }
    rewrite <- (Hup s), <- (Hup t), H. reflexivity.
  - intros a b. unfold String.ltb. rewrite (String.compare_antisym a b).
    destruct (String.compare b a); cbn; congruence.
  - intros a b. unfold String.ltb. rewrite (String.compare_antisym a b).
    destruct (String.compare b a) eqn:Hc; cbn; try discriminate.
    intros _ _. symmetry. now apply String.compare_eq_iff.
Defined.

(** An instance that knows one character outside ASCII, the KELVIN SIGN
    (U+212A, in UTF-8 the bytes E2 84 AA): JavaScript lower-cases it to
    [k] and leaves it alone when upper-casing. *)
Definition kelvinSign : string :=
  String "226"%char (String "132"%char (String "170"%char EmptyString)).

Fixpoint lowerKelvin (s : string) : string :=
  match s with
  | EmptyString => EmptyString
  | String c rest =>
      match rest with
      | String c1 (String c2 rest') =>
          if Ascii.eqb c "226" && Ascii.eqb c1 "132" && Ascii.eqb c2 "170"
          then String "k"%char (lowerKelvin rest')
          else String c (lowerKelvin rest)
      | _ => String c (lowerKelvin rest)
      end
  end.

Definition kelvin : Unicode :=
  {| lowerOther := fun s => lowerKelvin (asciiLower s);
     upperOther := asciiUpper;
     ltOther := String.ltb;
     lowerOther_variant := fun s t H => f_equal lowerKelvin H;
     upperOther_variant := upperOther_variant (Unicode := asciiOnly);
     ltOther_asym := ltOther_asym (Unicode := asciiOnly);
     ltOther_total := ltOther_total (Unicode := asciiOnly) |}.

End JS.

(* ===================================================================== *)
(** ** src/utils/priceOracle.js                                           *)
(* ===================================================================== *)

Module PriceOracle.

(** One entry of the upstream JSON payload, [response.data[coinId]].
    A field that the payload does not carry reads as [undefined]. *)
Record coinData : Type := {
  usd : option float;
  usd_24h_change : option float;
  usd_market_cap : option float;
  usd_24h_vol : option float
}.

(** The object [fetchPriceFromCoinGecko] builds. *)
Record priceRecord : Type := {
  p_usd : option float;
  change24h : option float;
  marketCap : option float;
  volume24h : option float
}.

(** The query of one [axios.get(url, {params})] call. A parameter that the
    call site leaves out is [None]. *)
Record request : Type := {
  url : string;
  ids : string;
  vs_currencies : string;
  include_24hr_change : option bool;
  include_market_cap : option bool;
  include_24hr_vol : option bool
}.

(** [response.data] of a successful call. *)
Abbreviation payload := (gmap string coinData).

(** The HTTP client as the oracle sees it during one call. *)
Abbreviation upstream := (request -> result (gmap string coinData)).

Record cacheEntry : Type := {
  price : priceRecord;
  timestamp : Z
}.

(** The fields of a [PriceOracle] instance that its methods read or write
    ([sources] is a constant table, see [coingecko]). *)
Record oracle : Type := {
  cache : gmap string cacheEntry;
  cacheTTL : Z
}.

Definition coingecko : string := "https://api.coingecko.com/api/v3".

(** [constructor()] *)
Definition new : oracle := {| cache := ∅; cacheTTL := 60000 |}.

(** What one method call leaves behind: the value it resolves to (or the
    error it rejects with), the instance afterwards, and the upstream
    requests it issued, oldest first. *)
Record outcome (A : Type) : Type := {
  value : result A;
  after : oracle;
  sent : list request
}.

Arguments value {A} _.
Arguments after {A} _.
Arguments sent {A} _.

(** The literal [mapping] of [getCoinGeckoId], in source order. *)
Definition mapping_entries : list (string * string) :=
  [ ("ETH", "ethereum");
    ("BTC", "bitcoin");
    ("USDC", "usd-coin");
    ("USDT", "tether");
    ("DAI", "dai");
    ("WETH", "weth");
    ("WBTC", "wrapped-bitcoin");
    ("UNI", "uniswap");
    ("AAVE", "aave");
    ("LINK", "chainlink");
    ("MATIC", "matic-network");
    ("ARB", "arbitrum") ].

Definition mapping : gmap string string := list_to_map mapping_entries.

(** [getCoinGeckoId(symbol)]:
    [mapping[symbol.toUpperCase()] || symbol.toLowerCase()].
    Every value of the table is a non-empty string, hence truthy, and no
    inherited property of an object literal has a name that is the
    upper-casing of a string, so [||] falls through exactly when the table
    has no such key. *)
Definition getCoinGeckoId {U : JS.Unicode} (symbol : string) : string :=
  match mapping !! JS.toUpperCase symbol with
  | Some id => id
  | None => JS.toLowerCase symbol
  end.

Definition singleRequest (coinId : string) : request :=
  {| url := coingecko +:+ "/simple/price";
     ids := coinId;
     vs_currencies := "usd";
     include_24hr_change := Some true;
     include_market_cap := Some true;
     include_24hr_vol := Some true |}.

(** What [response.data[coinId]] evaluates to.  The payload is a plain
    object parsed from JSON.  An own entry wins; otherwise a name that
    objects inherit from [Object.prototype] reads as the inherited value
    (a function, or [Object.prototype] itself under [__proto__]); any other
    name reads as [undefined]. *)
Inductive property : Type :=
  | Entry (data : coinData)
  | Inherited (name : string)
  | Undefined.

Definition readProperty (response_data : gmap string coinData) (name : string)
  : property :=
  match response_data !! name with
  | Some data => Entry data
  | None => if JS.inherits name then Inherited name else Undefined
  end.

(** [fetchPriceFromCoinGecko(tokenSymbol)], with the request it issued.
    When [data] is [undefined], reading [data.usd] throws a [TypeError].
    When [data] is an inherited value, it carries none of the four fields
    and every one of them reads as [undefined]. *)
Definition fetchPriceFromCoinGecko {U : JS.Unicode} (get : upstream)
    (tokenSymbol : string)
  : result priceRecord * list request :=
  let coinId := getCoinGeckoId tokenSymbol in
  let req := singleRequest coinId in
  (match get req with
   | Throw e => Throw e
   | Ok response_data =>
       match readProperty response_data coinId with
       | Undefined => Throw (TypeError "Cannot read properties of undefined (reading 'usd')")
       | Entry data =>
           Ok {| p_usd := usd data;
                 change24h := usd_24h_change data;
                 marketCap := usd_market_cap data;
                 volume24h := usd_24h_vol data |}
       | Inherited _ =>
           Ok {| p_usd := None;
                 change24h := None;
                 marketCap := None;
                 volume24h := None |}
       end
   end, [req]).

Definition cacheKeyOf {U : JS.Unicode} (tokenSymbol : string) : string :=
  "price_" +:+ JS.toLowerCase tokenSymbol.

(** [getPrice(tokenSymbol)].  [now_check] is the reading of [Date.now()]
    in the freshness test, [now_store] the later reading taken when the
    fetched record is stored.  The [catch] block logs and rethrows, so a
    failed fetch reaches the caller unchanged and [cache.set] is skipped. *)
Definition getPrice {U : JS.Unicode} (get : upstream) (now_check now_store : Z)
    (tokenSymbol : string) (o : oracle) : outcome priceRecord :=
  let cacheKey := cacheKeyOf tokenSymbol in
  let refresh :=
    match fetchPriceFromCoinGecko get tokenSymbol with
    | (Ok p, reqs) =>
        {| value := Ok p;
           after := {| cache := <[cacheKey := {| price := p; timestamp := now_store |}]> (cache o);
                       cacheTTL := cacheTTL o |};
           sent := reqs |}
    | (Throw e, reqs) =>
        {| value := Throw e; after := o; sent := reqs |}
    end in
  match cache o !! cacheKey with
  | Some cached =>
      if (now_check - timestamp cached <? cacheTTL o)%Z
      then {| value := Ok (price cached); after := o; sent := [] |}
      else refresh
  | None => refresh
  end.

Definition batchRequest (coinIds : list string) : request :=
  {| url := coingecko +:+ "/simple/price";
     ids := JS.join "," coinIds;
     vs_currencies := "usd";
     include_24hr_change := Some true;
     include_market_cap := None;
     include_24hr_vol := None |}.

(** The object [getBatchPrices] builds and returns: its own keys, each
    with the value assigned to it, and its prototype.  [Inherited "__proto__"]
    is [Object.prototype], the prototype of an object literal. *)
Record pricesObject : Type := {
  own : gmap string property;
  proto : property
}.

(** The object literal [{}]. *)
Definition emptyObject : pricesObject :=
  {| own := ∅; proto := Inherited "__proto__" |}.

(** The assignment [prices[symbol] = v].  Under the name [__proto__] it
    reaches the setter inherited from [Object.prototype]: no key is
    created, an object becomes the new prototype, and [undefined] is
    ignored.  Under any other name it creates or overwrites the own key. *)
Definition assign (prices : pricesObject) (symbol : string) (v : property)
  : pricesObject :=
  if String.eqb symbol "__proto__" then
    match v with
    | Undefined => prices
    | _ => {| own := own prices; proto := v |}
    end
  else {| own := <[symbol := v]> (own prices); proto := proto prices |}.

(** The [forEach] of [getBatchPrices]:
    [prices[symbol] = response.data[coinIds[index]]], left to right; a
    later assignment to the same key overwrites the earlier one.  An index
    past the end of [coinIds] would read [response.data[undefined]], the
    property named ["undefined"]. *)
Fixpoint assignPrices (response_data : gmap string coinData)
    (coinIds : list string) (index : nat) (tokenSymbols : list string)
    (prices : pricesObject) : pricesObject :=
  match tokenSymbols with
  | [] => prices
  | symbol :: rest =>
      let coinId := default "undefined" (coinIds !! index) in
      assignPrices response_data coinIds (S index) rest
        (assign prices symbol (readProperty response_data coinId))
  end.

(** [getBatchPrices(tokenSymbols)]. *)
Definition getBatchPrices {U : JS.Unicode} (get : upstream)
    (tokenSymbols : list string)
    (o : oracle) : outcome pricesObject :=
  let coinIds := map getCoinGeckoId tokenSymbols in
  let req := batchRequest coinIds in
  match get req with
  | Throw e => {| value := Throw e; after := o; sent := [req] |}
  | Ok response_data =>
      {| value := Ok (assignPrices response_data coinIds 0 tokenSymbols emptyObject);
         after := o;
         sent := [req] |}
  end.

(** [clearCache()] *)
Definition clearCache (o : oracle) : oracle :=
  {| cache := ∅; cacheTTL := cacheTTL o |}.

End PriceOracle.


(* ===================================================================== *)
(** ** The Uniswap V3 integration (class [UniswapAnalytics])              *)
(* ===================================================================== *)

Module Ethers.

(** The parts of ethers v5 that the integration calls. *)

(** [BigNumber.pow]: a negative exponent is a fault. *)
Definition pow (base exponent : Z) : result Z :=
  if exponent <? 0 then Throw (NumericFault "negative-power")
  else Ok (base ^ exponent).

(** [BigNumber.div]: truncating division, a zero divisor is a fault. *)
Definition div (a b : Z) : result Z :=
  if b =? 0 then Throw (NumericFault "division-by-zero")
  else Ok (Z.quot a b).

(** [BigNumber.mul] *)
Definition mul (a b : Z) : Z := a * b.

(** Decimal rendering of a non-negative integer ([toString]). *)
Definition toString (n : Z) : string :=
  NilZero.string_of_uint (N.to_uint (Z.to_N n)).

Fixpoint zeros (n : nat) : string :=
  match n with
  | O => EmptyString
  | S k => String "0" (zeros k)
  end.

(** [while (fraction.length < width) fraction = "0" + fraction] *)
Definition padStart (width : nat) (fraction : string) : string :=
  zeros (width - String.length fraction) +:+ fraction.

(** The longest prefix that ends in a non-zero digit (empty if none). *)
Fixpoint dropTrailingZeros (s : string) : string :=
  match s with
  | EmptyString => EmptyString
  | String c rest =>
      match dropTrailingZeros rest with
      | EmptyString => if Ascii.eqb c "0" then EmptyString else String c EmptyString
      | t => String c t
      end
  end.

(** The first group of the match that strips the fraction: the digits up
    to the last non-zero one, or a single zero when there is none. *)
Definition significant (fraction : string) : string :=
  match dropTrailingZeros fraction with
  | EmptyString => "0"
  | t => t
  end.

(** [utils.formatUnits(value, decimals)] for a numeric [decimals]:
    the decimal numeral of [value / 10^decimals], with at least one digit
    after the point unless [decimals] is 0; sizes outside 0..256 are
    rejected. *)
Definition formatUnits (value decimals : Z) : result string :=
  if (0 <=? decimals) && (decimals <=? 256) then
    let multiplier := 10 ^ decimals in
    let negative := value <? 0 in
    let magnitude := Z.abs value in
    let fraction :=
      significant (padStart (Z.to_nat decimals) (toString (magnitude mod multiplier))) in
    let whole := toString (magnitude / multiplier) in
    let rendered := if decimals =? 0 then whole else whole +:+ "." +:+ fraction in
    Ok (if negative then "-" +:+ rendered else rendered)
  else Throw (ArgumentError "invalid decimal size").

(** The hashing and encoding primitives, kept abstract:
    [encode a b fee] is
    [utils.defaultAbiCoder.encode(['address','address','uint24'], [a, b, fee])],
    [keccak256] is [utils.keccak256] and [getCreate2Address] is
    [utils.getCreate2Address(from, salt, initCodeHash)].  Each may reject
    its arguments. *)
Record primitives : Type := {
  encode : string -> string -> option Z -> result string;
  keccak256 : string -> result string;
  getCreate2Address : string -> string -> string -> result string
}.

(** What a caller hands to [BigNumber.from]: a JavaScript number of
    integral value, or a carrier of an integer of any size (a [BigNumber],
    a [bigint], a decimal or hexadecimal numeral).  A number with a
    fractional part and a string that is no numeral are rejected by
    [BigNumber.from] as well; they are not values of this type. *)
Inductive bigNumberish : Type :=
  | Number (n : Z)
  | Exact (z : Z).

Definition MAX_SAFE : Z := 2 ^ 53 - 1.

(** [BigNumber.from]: a JavaScript number at or beyond [MAX_SAFE] in
    magnitude is a fault. *)
Definition from (value : bigNumberish) : result Z :=
  match value with
  | Exact z => Ok z
  | Number n =>
      if (MAX_SAFE <=? n) || (n <=? - MAX_SAFE)
      then Throw (NumericFault "overflow")
      else Ok n
  end.

End Ethers.

Module UniswapAnalytics.

(** **** calculatePrice *)

(** The [adjustedPrice] of [calculatePrice], before it is rendered. *)
Definition adjustedPrice (sqrtPriceX96 token0Decimals token1Decimals : Z)
  : result Z :=
  do Q96 <- Ethers.pow 2 96;
  do price <- Ethers.div (Ethers.mul sqrtPriceX96 sqrtPriceX96) Q96;
  do scale0 <- Ethers.pow 10 token0Decimals;
  do scale1 <- Ethers.pow 10 token1Decimals;
  Ethers.div (Ethers.mul price scale0) scale1.

(** [calculatePrice(sqrtPriceX96, token0Decimals, token1Decimals)] *)
Definition calculatePrice (sqrtPriceX96 token0Decimals token1Decimals : Z)
  : result string :=
  do adjusted <- adjustedPrice sqrtPriceX96 token0Decimals token1Decimals;
  Ethers.formatUnits adjusted token1Decimals.

(** **** computePoolAddress *)

Definition factoryAddress : string := "0x1F98431c8aD98523631AE4a59f267346ea31F984".

Definition POOL_INIT_CODE_HASH : string :=
  "0xe34f199b19b2b4f47f68442619d555527d244f78a3297ea89325f843f87b8b54".

(** [computePoolAddress(token0, token1, fee)].  An argument that the call
    site leaves out arrives as [undefined] ([None]); calling [toLowerCase]
    on it throws a [TypeError] before anything else happens. *)
Definition computePoolAddress {U : JS.Unicode} (E : Ethers.primitives)
    (token0 token1 : option string) (fee : option Z) : result string :=
  match token0, token1 with
  | Some t0, Some t1 =>
      let '(tokenA, tokenB) :=
        if JS.lt (JS.toLowerCase t0) (JS.toLowerCase t1)
        then (t0, t1) else (t1, t0) in
      do encoded <- Ethers.encode E tokenA tokenB fee;
      do salt <- Ethers.keccak256 E encoded;
      Ethers.getCreate2Address E factoryAddress salt POOL_INIT_CODE_HASH
  | _, _ =>
      Throw (TypeError "Cannot read properties of undefined (reading 'toLowerCase')")
  end.

(** **** getPoolInfo *)

(** The fields of [slot0()] that the integration reads. *)
Record slot0Data : Type := {
  s_sqrtPriceX96 : Z;
  s_tick : Z;
  s_observationIndex : Z;
  s_observationCardinality : Z
}.

(** The four reads of a pool contract, as the chain answers them. *)
Record poolContract : Type := {
  slot0 : result slot0Data;
  liquidity : result Z;
  token0 : result string;
  token1 : result string
}.

(** The chain RPC: the contract bound to an address. *)
Abbreviation chain := (string -> poolContract).

(** The object [getPoolInfo] returns; [fee] is the caller's argument,
    handed through untouched, and [liquidity] is the decimal string of the
    on-chain value (kept here as the integer it spells). *)
Record poolInfo : Type := {
  address : string;
  pi_token0 : string;
  pi_token1 : string;
  fee : option Z;
  sqrtPriceX96 : Z;
  tick : Z;
  pi_liquidity : Z;
  observationIndex : Z;
  observationCardinality : Z
}.

(** [getPoolInfo(token0Address, token1Address, fee)].  The [catch] block
    logs and rethrows.  [Promise.all] settles with the first rejection;
    the four reads are taken in the order they are listed. *)
Definition getPoolInfo {U : JS.Unicode} (E : Ethers.primitives) (rpc : chain)
    (token0Address token1Address : option string) (fee : option Z)
  : result poolInfo :=
  do poolAddress <- computePoolAddress E token0Address token1Address fee;
  let poolContract := rpc poolAddress in
  do slot0 <- slot0 poolContract;
  do liquidity <- liquidity poolContract;
  do token0 <- token0 poolContract;
  do token1 <- token1 poolContract;
  Ok {| address := poolAddress;
        pi_token0 := token0;
        pi_token1 := token1;
        fee := fee;
        sqrtPriceX96 := s_sqrtPriceX96 slot0;
        tick := s_tick slot0;
        pi_liquidity := liquidity;
        observationIndex := s_observationIndex slot0;
        observationCardinality := s_observationCardinality slot0 |}.

(** **** calculateLiquidityAPY *)

(** Conversion of an integer to the nearest binary64 value, as the
    arithmetic operators do for a numeric string or an integer. *)
Definition toNumber (z : Z) : float :=
  SF2Prim (binary_normalize prec emax z 0 false).

(** A possibly [undefined] integer in an arithmetic position. *)
Definition toNumberOrNaN (z : option Z) : float :=
  match z with
  | Some v => toNumber v
  | None => nan
  end.

(** The object [calculateLiquidityAPY] returns; the two last fields are
    present only for a position in range. *)
Record apyReport : Type := {
  apy : float;
  inRange : bool;
  volume24h : option float;
  fees24h : option float
}.

(** [get24hVolume(poolAddress)]: the mock value of the source. *)
Definition get24hVolume (poolAddress : string) : result float :=
  Ok 100000%float.

(** What [calculateLiquidityAPY] does once it holds a [poolInfo]. *)
Definition liquidityAPYOf (info : poolInfo) (poolAddress : string)
    (positionTickLower positionTickUpper : Z) : result apyReport :=
  let currentTick := tick info in
  let inRange :=
    (positionTickLower <=? currentTick) && (currentTick <=? positionTickUpper) in
  if negb inRange then
    Ok {| apy := 0%float; inRange := false; volume24h := None; fees24h := None |}
  else
    do volume24h <- get24hVolume poolAddress;
    let feeRate := (toNumberOrNaN (fee info) / 1000000)%float in
    let fees24h := (volume24h * feeRate)%float in
    let apy := ((fees24h * 365) / toNumber (pi_liquidity info) * 100)%float in
    Ok {| apy := apy; inRange := true;
          volume24h := Some volume24h; fees24h := Some fees24h |}.

(** [calculateLiquidityAPY(poolAddress, positionTickLower, positionTickUpper)].
    Its first statement is [await this.getPoolInfo(poolAddress)]: one
    argument for a method of three, so [token1Address] and [fee] are
    [undefined] inside [getPoolInfo]. *)
Definition calculateLiquidityAPY {U : JS.Unicode} (E : Ethers.primitives)
    (rpc : chain)
    (poolAddress : string) (positionTickLower positionTickUpper : Z)
  : result apyReport :=
  do poolInfo <- getPoolInfo E rpc (Some poolAddress) None None;
  liquidityAPYOf poolInfo poolAddress positionTickLower positionTickUpper.

End UniswapAnalytics.

(* ===================================================================== *)
(** ** The portfolio analytics engine (class [PortfolioAnalytics])        *)
(* ===================================================================== *)

Module PortfolioAnalytics.

(** A lending position as [calculateRiskMetrics] reads it.  The numeric
    fields hold what the arithmetic sees: a missing field is [NaN]. *)
Record position : Type := {
  type : string;
  value : float;
  liquidationThreshold : float
}.

(** The object [calculateRiskMetrics] returns. *)
Record riskMetrics : Type := {
  healthFactor : float;
  collateralizationRatio : float;
  liquidationRisk : string;
  totalCollateral : float;
  totalDebt : float
}.

(** A protocol-specific position fetcher ([getAavePositions] and its
    siblings): an [async] method of the instance. *)
Abbreviation fetcher := (string -> result (list position)).

(** The placeholder the class ships: [async getAavePositions(address) { return []; }] *)
Definition getAavePositions : fetcher := fun _ => Ok [].

(** [getLendingPositions(address)]: a failing fetcher is logged and
    skipped, so the method itself always resolves. *)
Definition getLendingPositions (aave : fetcher) (address : string)
  : result (list position) :=
  let positions := [] in
  let positions :=
    match aave address with
    | Ok aavePositions => positions ++ aavePositions
    | Throw _ => positions
    end in
  Ok positions.

(** The three accumulators of the loop of [calculateRiskMetrics]. *)
Record sums : Type := {
  s_totalCollateral : float;
  s_totalDebt : float;
  s_liquidationThreshold : float
}.

Definition accumulate (acc : sums) (p : position) : sums :=
  if String.eqb (type p) "collateral" then
    {| s_totalCollateral := (s_totalCollateral acc + value p)%float;
       s_totalDebt := s_totalDebt acc;
       s_liquidationThreshold :=
         (s_liquidationThreshold acc + value p * liquidationThreshold p)%float |}
  else if String.eqb (type p) "debt" then
    {| s_totalCollateral := s_totalCollateral acc;
       s_totalDebt := (s_totalDebt acc + value p)%float;
       s_liquidationThreshold := s_liquidationThreshold acc |}
  else acc.

Definition sumPositions (positions : list position) : sums :=
  fold_left accumulate positions
    {| s_totalCollateral := 0%float;
       s_totalDebt := 0%float;
       s_liquidationThreshold := 0%float |}.

(** [calculateRiskMetrics(address)] *)
Definition calculateRiskMetrics (aave : fetcher) (address : string)
  : result riskMetrics :=
  do positions <- getLendingPositions aave address;
  let acc := sumPositions positions in
  let totalCollateral := s_totalCollateral acc in
  let totalDebt := s_totalDebt acc in
  let liquidationThreshold := s_liquidationThreshold acc in
  let healthFactor :=
    if (0 <? totalCollateral)%float
    then ((liquidationThreshold / totalCollateral) / (totalDebt / totalCollateral))%float
    else infinity in
  Ok {| healthFactor := healthFactor;
        collateralizationRatio :=
          if (0 <? totalDebt)%float then (totalCollateral / totalDebt)%float else infinity;
        liquidationRisk :=
          if (healthFactor <? 1.5)%float then "High"
          else if (healthFactor <? 2)%float then "Medium" else "Low";
        totalCollateral := totalCollateral;
        totalDebt := totalDebt |}.

End PortfolioAnalytics.

(* ===================================================================== *)
(** ** Vocabulary of the specification                                    *)
(* ===================================================================== *)

Module Spec.

Import PriceOracle.

(** Symbol resolution as the specification words it: upper-case and trim,
    look the result up in the table, and fall back to the lower-cased
    (trimmed) symbol. *)
Definition resolveSymbol {U : JS.Unicode} (symbol : string) : string :=
  let canonical := JS.trim symbol in
  match mapping !! JS.toUpperCase canonical with
  | Some id => id
  | None => JS.toLowerCase canonical
  end.

(** The identifiers of a batch as the specification words it: the set of
    distinct identifiers of the requested symbols, each listed once. *)
Definition distinctIds {U : JS.Unicode} (tokenSymbols : list string)
  : list string :=
  remove_dups (map getCoinGeckoId tokenSymbols).

(** A cached record is live at [now] while less than [cacheTTL]
    milliseconds have passed since it was stored. *)
Definition live (o : oracle) (key : string) (now : Z) : bool :=
  match cache o !! key with
  | Some entry => now - timestamp entry <? cacheTTL o
  | None => false
  end.

(** A call on the instance that may happen between two [getPrice] calls
    (everything but [clearCache]), and the instance it leaves. *)
Inductive call : Type :=
  | GetPrice (get : upstream) (now_check now_store : Z) (tokenSymbol : string)
  | GetBatchPrices (get : upstream) (tokenSymbols : list string).

Definition step {U : JS.Unicode} (o : oracle) (c : call) : oracle :=
  match c with
  | GetPrice get now_check now_store tokenSymbol =>
      after (getPrice get now_check now_store tokenSymbol o)
  | GetBatchPrices get tokenSymbols =>
      after (getBatchPrices get tokenSymbols o)
  end.

Definition run {U : JS.Unicode} (calls : list call) (o : oracle) : oracle :=
  fold_left step calls o.

(** The call does not read the clock later than [t]. *)
Definition notAfter (t : Z) (c : call) : Prop :=
  match c with
  | GetPrice _ now_check _ _ => now_check <= t
  | GetBatchPrices _ _ => True
  end.

(** Value of one hexadecimal digit, in either case. *)
Definition hexDigit (c : ascii) : option N :=
  let n := N_of_ascii c in
  if (48 <=? n)%N && (n <=? 57)%N then Some (n - 48)%N
  else if (97 <=? n)%N && (n <=? 102)%N then Some (n - 87)%N
  else if (65 <=? n)%N && (n <=? 70)%N then Some (n - 55)%N
  else None.

Fixpoint hexDigits (s : string) : option (list N) :=
  match s with
  | EmptyString => Some []
  | String c rest =>
      match hexDigit c, hexDigits rest with
      | Some d, Some ds => Some (d :: ds)
      | _, _ => None
      end
  end.

(** A well-formed 20-byte hex address is [0x] followed by exactly forty
    hexadecimal digits; its value is the sequence of those forty nibbles. *)
Definition addressValue (s : string) : option (list N) :=
  match s with
  | String "0" (String "x" body) =>
      match hexDigits body with
      | Some ds => if Nat.eqb (List.length ds) 40 then Some ds else None
      | None => None
      end
  | _ => None
  end.

(** An upstream that answers every request with the payload
    [{ethereum: {usd: 2000}, "usd-coin": {usd: 1}}]. *)
Definition usdOnly (v : float) : coinData :=
  {| usd := Some v; usd_24h_change := None;
     usd_market_cap := None; usd_24h_vol := None |}.

Definition mockPayload : gmap string coinData :=
  <["ethereum" := usdOnly 2000%float]> (<["usd-coin" := usdOnly 1%float]> ∅).

Definition mockUpstream : upstream := fun _ => Ok mockPayload.

(** A stand-in for the ethers primitives that keeps its arguments in
    sight, to run [computePoolAddress] on examples: the encoding is the two
    addresses side by side, and hashing and address derivation hand their
    input through. *)
Definition visiblePrimitives : Ethers.primitives :=
  {| Ethers.encode := fun a b _ => Ok (a +:+ "," +:+ b);
     Ethers.keccak256 := fun encoded => Ok encoded;
     Ethers.getCreate2Address := fun _ salt _ => Ok salt |}.

Definition USDC : string := "0xA0b86991c6218b36c1d19D4a2e9Eb0cE3606eB48".
Definition WETH : string := "0xC02aaA39b223FE8D0A0e5C4F27eAD9083C756Cc2".

(** An upstream that cannot be reached. *)
Definition offline : upstream := fun _ => Throw (UpstreamError "Network Error").

(** A fresh instance after one [getPrice("ETH")] against the mock upstream
    at time 0, and a short history of later calls on it. *)
Definition primed : oracle := after (getPrice mockUpstream 0 0 "ETH" new).

Definition history : list call :=
  [ GetBatchPrices mockUpstream ["ETH"; "USDC"];
    GetPrice mockUpstream 30000 30001 "USDC" ].

End Spec.

(* ===================================================================== *)
(** ** Reading a rendered decimal numeral                                 *)
(* ===================================================================== *)

Module Numeral.

(** Value of one decimal digit. *)
Definition digitValue (c : ascii) : option N :=
  let n := N_of_ascii c in
  if (48 <=? n)%N && (n <=? 57)%N then Some (n - 48)%N else None.

(** Value of a string of decimal digits read after the prefix [acc]. *)
Fixpoint digitsValue (acc : N) (s : string) : option N :=
  match s with
  | EmptyString => Some acc
  | String c rest =>
      match digitValue c with
      | Some d => digitsValue (10 * acc + d) rest
      | None => None
      end
  end.

(** The text before the first point, and the text after it if there is one. *)
Fixpoint splitAtPoint (s : string) : string * option string :=
  match s with
  | EmptyString => (EmptyString, None)
  | String c rest =>
      if Ascii.eqb c "." then (EmptyString, Some rest)
      else let '(whole, fraction) := splitAtPoint rest in (String c whole, fraction)
  end.

(** An unsigned decimal numeral [w] or [w.f] denotes [n / 10^k], where [n]
    is the value of the digits of [w] followed by those of [f] and [k] is
    the number of digits of [f]. *)
Definition value (s : string) : option (N * nat) :=
  match splitAtPoint s with
  | (EmptyString, _) => None
  | (whole, None) =>
      match digitsValue 0 whole with
      | Some n => Some (n, O)
      | None => None
      end
  | (_, Some EmptyString) => None
  | (whole, Some fraction) =>
      match digitsValue 0 (whole +:+ fraction) with
      | Some n => Some (n, String.length fraction)
      | None => None
      end
  end.


Definition lt (x y : N * nat) : Prop :=
  (x.1 * 10 ^ N.of_nat y.2 < y.1 * 10 ^ N.of_nat x.2)%N.

End Numeral.

(* ===================================================================== *)
(** ** The rest of src/utils/priceOracle.js                               *)
(* ===================================================================== *)

Module PriceOracleOps.

Import PriceOracle.

(** The query of the [market_chart] call of [getHistoricalPrices]. *)
Record chartRequest : Type := {
  chart_url : string;
  vs_currency : string;
  days : Z
}.

(** [response.data] of the [market_chart] endpoint: [prices] is an array of
    [[timestamp, price]] pairs, or missing. *)
Record chartPayload : Type := {
  prices : option (list (Z * float))
}.

Abbreviation chartUpstream := (chartRequest -> result chartPayload).

(** One element of the array [getHistoricalPrices] returns; [timestamp] is
    the epoch reading that the [Date] object wraps. *)
Record pricePoint : Type := {
  timestamp : Z;
  price : float
}.

Record chartOutcome : Type := {
  chart_value : result (list pricePoint);
  chart_after : oracle;
  chart_sent : list chartRequest
}.

Definition chartRequestOf (coinId : string) (days : Z) : chartRequest :=
  {| chart_url := coingecko +:+ "/coins/" +:+ coinId +:+ "/market_chart";
     vs_currency := "usd";
     days := days |}.

(** [getHistoricalPrices(tokenSymbol, days = 7)]: [days] is [None] when the
    caller leaves it out.  A payload without [prices] makes
    [response.data.prices.map] throw a [TypeError]. *)
Definition getHistoricalPrices {U : JS.Unicode} (get : chartUpstream)
    (tokenSymbol : string)
    (days : option Z) (o : oracle) : chartOutcome :=
  let days := default 7 days in
  let coinId := getCoinGeckoId tokenSymbol in
  let req := chartRequestOf coinId days in
  {| chart_value :=
       match get req with
       | Throw e => Throw e
       | Ok response_data =>
           match prices response_data with
           | None => Throw (TypeError "Cannot read properties of undefined (reading 'map')")
           | Some pairs =>
               Ok (map (fun '(timestamp, price) =>
                          {| timestamp := timestamp; price := price |}) pairs)
           end
       end;
     chart_after := o;
     chart_sent := [req] |}.

(** The object [getCacheStats()] returns.  [entries] lists the keys of the
    cache; the order of the list (insertion order in the source) is not
    modelled, the field holds the keys as a set. *)
Record cacheStats : Type := {
  stats_size : nat;
  entries : gset string
}.

Definition getCacheStats (o : oracle) : cacheStats :=
  {| stats_size := size (cache o); entries := dom (cache o) |}.

(** A call of any method of the instance that touches the cache or the
    upstream, and the instance it leaves. *)
Inductive op : Type :=
  | DoGetPrice (get : upstream) (now_check now_store : Z) (tokenSymbol : string)
  | DoGetBatchPrices (get : upstream) (tokenSymbols : list string)
  | DoGetHistoricalPrices (get : chartUpstream) (tokenSymbol : string) (days : option Z)
  | DoClearCache
  | DoGetCacheStats.

Definition perform {U : JS.Unicode} (o : oracle) (c : op) : oracle :=
  match c with
  | DoGetPrice get now_check now_store tokenSymbol =>
      after (getPrice get now_check now_store tokenSymbol o)
  | DoGetBatchPrices get tokenSymbols =>
      after (getBatchPrices get tokenSymbols o)
  | DoGetHistoricalPrices get tokenSymbol days =>
      chart_after (getHistoricalPrices get tokenSymbol days o)
  | DoClearCache => clearCache o
  | DoGetCacheStats => o
  end.

Definition performAll {U : JS.Unicode} (ops : list op) (o : oracle) : oracle :=
  fold_left perform ops o.

Definition isGetPrice (c : op) : bool :=
  match c with
  | DoGetPrice _ _ _ _ => true
  | _ => false
  end.

End PriceOracleOps.

(* ===================================================================== *)
(** ** The rest of the Uniswap V3 integration                             *)
(* ===================================================================== *)

Module UniswapHistory.

Import UniswapAnalytics.

(** A block tag as [queryFilter] takes it. *)
Inductive blockTag : Type :=
  | Latest
  | AtBlock (number : Z).

(** [getBlockFromTimestamp(timestamp)]: the body is a stub that answers
    ['latest'] for every timestamp. *)
Definition getBlockFromTimestamp (timestamp : Z) : result blockTag :=
  Ok Latest.

(** The fields of a [Swap] event that [getHistoricalPrices] reads. *)
Record swapEvent : Type := {
  blockNumber : Z;
  args_sqrtPriceX96 : Z;
  args_amount0 : Z;
  transactionHash : string
}.

(** [poolContract.queryFilter(filter, fromBlock, toBlock)] for the contract
    at an address. *)
Abbreviation eventSource :=
  (string -> blockTag -> blockTag -> result (list swapEvent)).

(** One element of the array [getHistoricalPrices] returns. *)
Record historicalPrice : Type := {
  timestamp : Z;
  price : string;
  volume : string;
  txHash : string
}.

(** [BigNumber.toString] of a signed integer. *)
Definition toStringSigned (z : Z) : string :=
  if z <? 0 then "-" +:+ Ethers.toString (- z) else Ethers.toString z.

(** [Array.prototype.map] with a callback that may throw: the first throw
    ends the traversal. *)
Fixpoint mapResult {A B : Type} (f : A -> result B) (l : list A)
  : result (list B) :=
  match l with
  | [] => Ok []
  | x :: rest =>
      do y <- f x;
      do ys <- mapResult f rest;
      Ok (y :: ys)
  end.

(** [getHistoricalPrices(poolAddress, fromTimestamp, toTimestamp)] *)
Definition getHistoricalPrices (queryFilter : eventSource)
    (poolAddress : string) (fromTimestamp toTimestamp : Z)
  : result (list historicalPrice) :=
  do fromBlock <- getBlockFromTimestamp fromTimestamp;
  do toBlock <- getBlockFromTimestamp toTimestamp;
  do events <- queryFilter poolAddress fromBlock toBlock;
  mapResult
    (fun event =>
       do price <- calculatePrice (args_sqrtPriceX96 event) 18 18;
       Ok {| timestamp := blockNumber event;
             price := price;
             volume := toStringSigned (args_amount0 event);
             txHash := transactionHash event |})
    events.

(** A chain whose every pool contract answers with the same state: for
    examples. *)
Definition steadyChain : chain :=
  fun _ =>
    {| slot0 := Ok {| s_sqrtPriceX96 := 2 ^ 96; s_tick := 0;
                      s_observationIndex := 0; s_observationCardinality := 1 |};
       liquidity := Ok 1000000;
       token0 := Ok Spec.USDC;
       token1 := Ok Spec.WETH |}.

End UniswapHistory.

(* ===================================================================== *)
(** ** src/utils/contract.js                                              *)
(* ===================================================================== *)

Module ContractUtils.

(** The provider calls that the utilities make: [getBlockNumber()],
    [getCode(address, blockTag)] and [getGasPrice()]. *)
Record provider : Type := {
  getBlockNumber : result Z;
  getCode : string -> Z -> result string;
  provider_getGasPrice : result Z
}.

(** The [while (low <= high)] loop of [getContractCreationBlock], run for
    at most [fuel] iterations; [None] when the fuel runs out before the
    loop ends.  [Ok None] is the [null] the method returns when the loop
    ends without a hit. *)
Fixpoint search (codeAt : Z -> result string) (fuel : nat) (low high : Z)
  : option (result (option Z)) :=
  match fuel with
  | O => None
  | S fuel' =>
      if low <=? high then
        let mid := (low + high) / 2 in
        match codeAt mid with
        | Throw e => Some (Throw e)
        | Ok code =>
            if String.eqb code "0x" then search codeAt fuel' (mid + 1) high
            else
              match codeAt (mid - 1) with
              | Throw e => Some (Throw e)
              | Ok prevCode =>
                  if String.eqb prevCode "0x" then Some (Ok (Some mid))
                  else search codeAt fuel' low (mid - 1)
              end
        end
      else Some (Ok None)
  end.

(** The contract has code at a block, or has none (the provider answers
    ['0x']). *)
Definition deployedAt (codeAt : Z -> result string) (block : Z) : Prop :=
  exists code, codeAt block = Ok code /\ code <> "0x".

Definition emptyAt (codeAt : Z -> result string) (block : Z) : Prop :=
  codeAt block = Ok "0x".

(** Iterations granted to the loop on the range [0 .. high]: one more than
    the number of blocks in the range. *)
Definition iterations (high : Z) : nat := S (Z.to_nat (high + 1)).

(** [getContractCreationBlock(address)] *)
Definition getContractCreationBlock (P : provider) (address : string)
  : result (option Z) :=
  do high <- getBlockNumber P;
  match search (getCode P address) (iterations high) 0 high with
  | Some outcome => outcome
  | None => Ok None
  end.

(** The object of three renderings that [getGasPrice] and
    [calculateTransactionCost] return. *)
Record amounts : Type := {
  wei : string;
  gwei : string;
  eth : string
}.

Definition renderAmounts (value : Z) : result amounts :=
  let wei := UniswapHistory.toStringSigned value in
  do gwei <- Ethers.formatUnits value 9;
  do eth <- Ethers.formatUnits value 18;
  Ok {| wei := wei; gwei := gwei; eth := eth |}.

(** [getGasPrice()] *)
Definition getGasPrice (P : provider) : result amounts :=
  do gasPrice <- provider_getGasPrice P;
  renderAmounts gasPrice.

(** [calculateTransactionCost(gasUsed, gasPrice)]: both arguments go
    through [BigNumber.from], [gasUsed] first. *)
Definition calculateTransactionCost (gasUsed gasPrice : Ethers.bigNumberish)
  : result amounts :=
  do used <- Ethers.from gasUsed;
  do price <- Ethers.from gasPrice;
  let cost := Ethers.mul used price in
  renderAmounts cost.


(** The fields of a log that [decodeEventLogs] copies. *)
Record log : Type := {
  log_address : string;
  log_blockNumber : Z;
  log_transactionHash : string;
  log_topics : list string;
  log_data : string
}.

(** The description [iface.parseLog] returns. *)
Record logDescription : Type := {
  ld_name : string;
  ld_signature : string;
  ld_args : list string
}.

Record decodedLog : Type := {
  name : string;
  signature : string;
  args : list string;
  address : string;
  blockNumber : Z;
  transactionHash : string
}.

(** One turn of the loop of [decodeEventLogs]: the entry built from a log
    that [parseLog] accepts; a log it rejects is skipped. *)
Definition decodeOne (parseLog : log -> result logDescription) (l : log)
  : option decodedLog :=
  match parseLog l with
  | Ok decoded =>
      Some {| name := ld_name decoded;
              signature := ld_signature decoded;
              args := ld_args decoded;
              address := log_address l;
              blockNumber := log_blockNumber l;
              transactionHash := log_transactionHash l |}
  | Throw _ => None
  end.

(** [decodeEventLogs(abi, logs)]: [iface] is the outcome of
    [new ethers.utils.Interface(abi)], which is built outside the [try]
    and rejects a malformed ABI. *)
Definition decodeEventLogs (iface : result (log -> result logDescription))
    (logs : list log) : result (list decodedLog) :=
  do parseLog <- iface;
  Ok (fold_left
        (fun decodedLogs l =>
           match decodeOne parseLog l with
           | Some entry => decodedLogs ++ [entry]
           | None => decodedLogs
           end)
        logs []).

(** A chain on which the contract appears at block [creation] and stays:
    a provider for examples. *)
Definition deployedFrom (creation latest : Z) : provider :=
  {| getBlockNumber := Ok latest;
     getCode := fun _ block => Ok (if block <? creation then "0x" else "0x6080");
     provider_getGasPrice := Ok 30000000000 |}.

End ContractUtils.

(* ===================================================================== *)
(** ** The rest of the portfolio analytics engine                         *)
(* ===================================================================== *)

Module PortfolioYield.

(** A position as the yield and value computations read it.  A numeric
    field that the object lacks is [NaN] here, which [|| 0] turns into 0
    just as it does [undefined]. *)
Record holding : Type := {
  type : string;
  value : float;
  dailyYield : float;
  apy : float
}.

(** [x || 0] on a number: 0 for the falsy numbers (zero of either sign,
    [NaN]), [x] otherwise. *)
Definition orZero (x : float) : float :=
  if is_nan x || (x =? 0)%float then 0%float else x.

(** The three protocol fetchers behind the position lists. *)
Record fetchers : Type := {
  getUniswapV3Positions : string -> result (list holding);
  getUniswapV2Positions : string -> result (list holding);
  getAavePositions : string -> result (list holding)
}.

(** The placeholders the class ships. *)
Definition placeholders : fetchers :=
  {| getUniswapV3Positions := fun _ => Ok [];
     getUniswapV2Positions := fun _ => Ok [];
     getAavePositions := fun _ => Ok [] |}.

(** One [try { positions.push(...await fetch(address)) } catch { log }]. *)
Definition pushAll (positions : list holding)
    (fetched : result (list holding)) : list holding :=
  match fetched with
  | Ok more => positions ++ more
  | Throw _ => positions
  end.

(** [getLiquidityPositions(address)] *)
Definition getLiquidityPositions (F : fetchers) (address : string)
  : result (list holding) :=
  let positions := [] in
  let positions := pushAll positions (getUniswapV3Positions F address) in
  let positions := pushAll positions (getUniswapV2Positions F address) in
  Ok positions.

(** [getLendingPositions(address)] *)
Definition getLendingPositions (F : fetchers) (address : string)
  : result (list holding) :=
  let positions := [] in
  let positions := pushAll positions (getAavePositions F address) in
  Ok positions.

(** The accumulators of [calculateYieldSummary]. *)
Record tally : Type := {
  totalYield : float;
  weightedAPY : float;
  totalValue : float
}.

Definition tallyPosition (t : tally) (position : holding) : tally :=
  {| totalYield := (totalYield t + orZero (dailyYield position))%float;
     weightedAPY :=
       (weightedAPY t + orZero (value position) * orZero (apy position))%float;
     totalValue := (totalValue t + orZero (value position))%float |}.

Definition tallySupply (t : tally) (position : holding) : tally :=
  if String.eqb (type position) "supply" then tallyPosition t position else t.

(** The object [calculateYieldSummary] returns. *)
Record yieldSummary : Type := {
  totalDailyYield : float;
  averageAPY : float;
  totalValueEarning : float;
  projectedMonthlyYield : float;
  projectedYearlyYield : float
}.

(** [calculateYieldSummary(address)] *)
Definition calculateYieldSummary (F : fetchers) (address : string)
  : result yieldSummary :=
  do lpPositions <- getLiquidityPositions F address;
  do lendingPositions <- getLendingPositions F address;
  let start :=
    {| totalYield := 0%float; weightedAPY := 0%float; totalValue := 0%float |} in
  let t := fold_left tallySupply lendingPositions
             (fold_left tallyPosition lpPositions start) in
  Ok {| totalDailyYield := totalYield t;
        averageAPY :=
          if (0 <? totalValue t)%float
          then (weightedAPY t / totalValue t)%float else 0%float;
        totalValueEarning := totalValue t;
        projectedMonthlyYield := (totalYield t * 30)%float;
        projectedYearlyYield := (totalYield t * 365)%float |}.

(** The argument of [calculateTotalValue]; of a token balance only its
    [value] is read. *)
Record portfolioData : Type := {
  tokenBalances : list float;
  lpPositions : list holding;
  lendingPositions : list holding
}.

Definition addLending (total : float) (position : holding) : float :=
  if String.eqb (type position) "supply" then (total + orZero (value position))%float
  else if String.eqb (type position) "debt" then (total - orZero (value position))%float
  else total.

(** [calculateTotalValue(portfolioData)] *)
Definition calculateTotalValue (data : portfolioData) : float :=
  let total := 0%float in
  let total := fold_left (fun total value => (total + value)%float)
                 (tokenBalances data) total in
  let total := fold_left (fun total position => (total + orZero (value position))%float)
                 (lpPositions data) total in
  fold_left addLending (lendingPositions data) total.

(** The position types that each computation takes into account. *)
Definition earns (position : holding) : bool :=
  String.eqb (type position) "supply".

Definition valued (position : holding) : bool :=
  String.eqb (type position) "supply" || String.eqb (type position) "debt".

Definition atRisk (position : PortfolioAnalytics.position) : bool :=
  String.eqb (PortfolioAnalytics.type position) "collateral" ||
  String.eqb (PortfolioAnalytics.type position) "debt".

End PortfolioYield.

(* ===================================================================== *)
(** * Properties                                                          *)
(* ===================================================================== *)

(** ** Risk metrics *)

(** C9. For every Aave fetcher (failing or not) and every address,
    [calculateRiskMetrics] resolves, reporting the totals of the positions
    that [getLendingPositions] delivered; and whenever the total debt is
    zero (more generally, whenever [totalDebt > 0] is false, which also
    covers [NaN]) the collateralization ratio it reports is [Infinity].
    With the placeholder fetcher of the source there are no positions at
    all, and the ratio is [Infinity] for every address. *)
Theorem calculateRiskMetrics_zero_debt_infinite :
  (forall (aave : PortfolioAnalytics.fetcher) (address : string),
   exists (positions : list PortfolioAnalytics.position)
          (m : PortfolioAnalytics.riskMetrics),
     PortfolioAnalytics.getLendingPositions aave address = Ok positions /\
     PortfolioAnalytics.calculateRiskMetrics aave address = Ok m /\
     PortfolioAnalytics.totalDebt m =
       PortfolioAnalytics.s_totalDebt (PortfolioAnalytics.sumPositions positions) /\
     (PortfolioAnalytics.totalDebt m = 0%float ->
        PortfolioAnalytics.collateralizationRatio m = infinity) /\
     ((0 <? PortfolioAnalytics.totalDebt m)%float = false ->
        PortfolioAnalytics.collateralizationRatio m = infinity)) /\
  (forall address : string,
     PortfolioAnalytics.calculateRiskMetrics PortfolioAnalytics.getAavePositions address =
       Ok {| PortfolioAnalytics.healthFactor := infinity;
             PortfolioAnalytics.collateralizationRatio := infinity;
             PortfolioAnalytics.liquidationRisk := "Low";
             PortfolioAnalytics.totalCollateral := 0%float;
             PortfolioAnalytics.totalDebt := 0%float |}).
Proof.
  split.
  - intros aave address.
    unfold PortfolioAnalytics.calculateRiskMetrics,
      PortfolioAnalytics.getLendingPositions.
    cbn [bind].
    do 2 eexists. split; [reflexivity|]. split; [reflexivity|].
    cbn [PortfolioAnalytics.totalDebt PortfolioAnalytics.collateralizationRatio].
    split; [reflexivity|]. split.
    + intros Hz. rewrite Hz. reflexivity.
    + intros Hlt. rewrite Hlt. reflexivity.
  - intros address. reflexivity.
Qed.

(** A fetcher that delivers collateral only (1000 at threshold 0.5, and
    250 at threshold 0.75): total debt 0, ratio [Infinity]. *)
Lemma calculateRiskMetrics_zero_debt_infinite_witness :
  exists m : PortfolioAnalytics.riskMetrics,
    PortfolioAnalytics.calculateRiskMetrics
      (fun _ => Ok [ {| PortfolioAnalytics.type := "collateral";
                        PortfolioAnalytics.value := 1000%float;
                        PortfolioAnalytics.liquidationThreshold := 0.5%float |};
                     {| PortfolioAnalytics.type := "collateral";
                        PortfolioAnalytics.value := 250%float;
                        PortfolioAnalytics.liquidationThreshold := 0.75%float |} ])
      "0x742d35Cc6634C0532925a3b844Bc454e4438f44e" = Ok m /\
    PortfolioAnalytics.totalCollateral m = 1250%float /\
    PortfolioAnalytics.totalDebt m = 0%float /\
    PortfolioAnalytics.collateralizationRatio m = infinity.
Proof.
  destruct (proj1 calculateRiskMetrics_zero_debt_infinite
              (fun _ => Ok [ {| PortfolioAnalytics.type := "collateral";
                                PortfolioAnalytics.value := 1000%float;
                                PortfolioAnalytics.liquidationThreshold := 0.5%float |};
                             {| PortfolioAnalytics.type := "collateral";
                                PortfolioAnalytics.value := 250%float;
                                PortfolioAnalytics.liquidationThreshold := 0.75%float |} ])
              "0x742d35Cc6634C0532925a3b844Bc454e4438f44e")
    as (positions & m & Hpos & Hm & Hdebt & Hzero & _).
  exists m. split; [exact Hm|].
  injection Hpos as <-.
  assert (Hd : PortfolioAnalytics.totalDebt m = 0%float) by (rewrite Hdebt; reflexivity).
  split; [|split; [exact Hd | exact (Hzero Hd)]].
  revert Hm. vm_compute. intros [= <-]. reflexivity.
Defined.

(** ** Price oracle *)

Section PriceOracleFacts.

Import PriceOracle.

Context {U : JS.Unicode}.

(** The slow path of [getPrice]: without a live entry the record is
    fetched, and stored only when the fetch succeeds. *)
Lemma getPrice_refresh (get : upstream) (t t' : Z) (s : string) (o : oracle) :
  Spec.live o (cacheKeyOf s) t = false ->
  getPrice get t t' s o =
    match (fetchPriceFromCoinGecko get s).1 with
    | Ok p =>
        {| value := Ok p;
           after := {| cache := <[cacheKeyOf s := {| price := p; timestamp := t' |}]> (cache o);
                       cacheTTL := cacheTTL o |};
           sent := [singleRequest (getCoinGeckoId s)] |}
    | Throw e =>
        {| value := Throw e; after := o;
           sent := [singleRequest (getCoinGeckoId s)] |}
    end.
Proof.
  unfold Spec.live, getPrice. intros Hlive.
  destruct (cache o !! cacheKeyOf s) as [entry|] eqn:Hentry.
  - rewrite Hlive. unfold fetchPriceFromCoinGecko. cbn.
    destruct (get _) as [data|e]; [destruct (readProperty data _)|]; reflexivity.
  - unfold fetchPriceFromCoinGecko. cbn.
    destruct (get _) as [data|e]; [destruct (readProperty data _)|]; reflexivity.
Qed.

(** The fast path: a live entry is returned as it is, without I/O. *)
Lemma getPrice_hit (get : upstream) (t t' : Z) (s : string) (o : oracle)
    (entry : cacheEntry) :
  cache o !! cacheKeyOf s = Some entry ->
  t - timestamp entry < cacheTTL o ->
  getPrice get t t' s o = {| value := Ok (price entry); after := o; sent := [] |}.
Proof.
  intros Hentry Hfresh. unfold getPrice. rewrite Hentry.
  apply Z.ltb_lt in Hfresh. rewrite Hfresh. reflexivity.
Qed.

(** A call that issued a request and resolved has stored its record under
    the key of the symbol, stamped with the second clock reading. *)
Lemma getPrice_fetched_stored (get : upstream) (t t' : Z) (s : string)
    (o : oracle) (p : priceRecord) :
  value (getPrice get t t' s o) = Ok p ->
  sent (getPrice get t t' s o) <> [] ->
  after (getPrice get t t' s o) =
    {| cache := <[cacheKeyOf s := {| price := p; timestamp := t' |}]> (cache o);
       cacheTTL := cacheTTL o |}.
Proof.
  destruct (Spec.live o (cacheKeyOf s) t) eqn:Hlive.
  - unfold Spec.live in Hlive. unfold getPrice.
    destruct (cache o !! cacheKeyOf s) as [entry|]; [|discriminate].
    rewrite Hlive. cbn. congruence.
  - rewrite (getPrice_refresh _ _ _ _ _ Hlive).
    destruct (fetchPriceFromCoinGecko get s).1 as [q|e]; cbn.
    + intros [= ->] _. reflexivity.
    + discriminate.
Qed.

(** A call made while the entry under [key] is live leaves that entry,
    and the time to live, as they are. *)
Lemma step_keeps_live_entry (key : string) (entry : cacheEntry) (t : Z)
    (o : oracle) (c : Spec.call) :
  cache o !! key = Some entry ->
  t - timestamp entry < cacheTTL o ->
  Spec.notAfter t c ->
  cache (Spec.step o c) !! key = Some entry /\
  cacheTTL (Spec.step o c) = cacheTTL o.
Proof.
  intros Hentry Hfresh Hc.
  destruct c as [get tc ts s | get symbols]; cbn in Hc |- *.
  - destruct (decide (cacheKeyOf s = key)) as [Hk|Hk].
    + rewrite (getPrice_hit get tc ts s o entry); [cbn; auto | congruence | lia].
    + destruct (Spec.live o (cacheKeyOf s) tc) eqn:Hlive.
      * unfold Spec.live in Hlive. unfold getPrice.
        destruct (cache o !! cacheKeyOf s) as [other|]; [|discriminate].
        rewrite Hlive. cbn. auto.
      * rewrite (getPrice_refresh get tc ts s o Hlive).
        destruct (fetchPriceFromCoinGecko get s).1 as [q|e]; cbn; [|auto].
        rewrite lookup_insert_ne by exact Hk. auto.
  - unfold getBatchPrices. destruct (get _); cbn; auto.
Qed.

Lemma run_keeps_live_entry (key : string) (entry : cacheEntry) (t : Z)
    (calls : list Spec.call) :
  forall o : oracle,
    cache o !! key = Some entry ->
    t - timestamp entry < cacheTTL o ->
    Forall (Spec.notAfter t) calls ->
    cache (Spec.run calls o) !! key = Some entry /\
    cacheTTL (Spec.run calls o) = cacheTTL o.
Proof.
  induction calls as [|c calls IH]; intros o Hentry Hfresh Hcalls; [cbn; auto|].
  inversion Hcalls as [|? ? Hc Hrest]; subst.
  destruct (step_keeps_live_entry key entry t o c Hentry Hfresh Hc) as [He Httl].
  change (Spec.run (c :: calls) o) with (Spec.run calls (Spec.step o c)).
  destruct (IH (Spec.step o c) He ltac:(rewrite Httl; exact Hfresh) Hrest)
    as [He' Httl'].
  split; [exact He' | congruence].
Qed.

End PriceOracleFacts.

(** C3. Time-bounded caching of [getPrice].  Suppose a first call for [s1]
    issued an upstream request and resolved with record [p], stored at
    clock reading [t], and consider a second call at clock reading [t'] on
    a symbol [s2] with the same lower-casing.
      - If [t' - t < cacheTTL], then after any history of [getPrice] and
        [getBatchPrices] calls in between (no [clearCache]; none of them
        reads the clock later than [t']) the second call issues no request,
        returns [p] and leaves the instance as it found it.
      - If [t' - t >= cacheTTL] and the second call follows directly, it
        behaves as on an absent entry: exactly one request for the
        identifier of [s2], and the result of that fetch.
      - After [clearCache()] a call for any symbol issues exactly one
        request, whatever the instance held before.
    The default [cacheTTL] is 60000 ms. *)
Theorem getPrice_cache_ttl {U : JS.Unicode} :
  forall (get1 get2 : PriceOracle.upstream) (o : PriceOracle.oracle)
         (s1 s2 : string) (t0 t t' t'' : Z) (p : PriceOracle.priceRecord)
         (between : list Spec.call),
    JS.toLowerCase s1 = JS.toLowerCase s2 ->
    PriceOracle.value (PriceOracle.getPrice get1 t0 t s1 o) = Ok p ->
    PriceOracle.sent (PriceOracle.getPrice get1 t0 t s1 o) <> [] ->
    Forall (Spec.notAfter t') between ->
    let o1 := PriceOracle.after (PriceOracle.getPrice get1 t0 t s1 o) in
    let o2 := Spec.run between o1 in
    (t' - t < PriceOracle.cacheTTL o ->
       PriceOracle.getPrice get2 t' t'' s2 o2 =
         {| PriceOracle.value := Ok p;
            PriceOracle.after := o2;
            PriceOracle.sent := [] |}) /\
    (PriceOracle.cacheTTL o <= t' - t ->
       PriceOracle.sent (PriceOracle.getPrice get2 t' t'' s2 o1) =
         [PriceOracle.singleRequest (PriceOracle.getCoinGeckoId s2)] /\
       PriceOracle.value (PriceOracle.getPrice get2 t' t'' s2 o1) =
         (PriceOracle.fetchPriceFromCoinGecko get2 s2).1) /\
    (forall (o' : PriceOracle.oracle) (s : string),
       PriceOracle.sent (PriceOracle.getPrice get2 t' t'' s (PriceOracle.clearCache o')) =
         [PriceOracle.singleRequest (PriceOracle.getCoinGeckoId s)] /\
       PriceOracle.value (PriceOracle.getPrice get2 t' t'' s (PriceOracle.clearCache o')) =
         (PriceOracle.fetchPriceFromCoinGecko get2 s).1) /\
    PriceOracle.cacheTTL PriceOracle.new = 60000.
Proof.
  intros get1 get2 o s1 s2 t0 t t' t'' p between Hcase Hval Hsent Hbetween o1 o2.
  assert (Hkey : PriceOracle.cacheKeyOf s2 = PriceOracle.cacheKeyOf s1)
    by (unfold PriceOracle.cacheKeyOf; now rewrite Hcase).
  assert (Ho1 : o1 =
    {| PriceOracle.cache :=
         <[PriceOracle.cacheKeyOf s1 :=
             {| PriceOracle.price := p; PriceOracle.timestamp := t |}]>
           (PriceOracle.cache o);
       PriceOracle.cacheTTL := PriceOracle.cacheTTL o |})
    by (apply getPrice_fetched_stored; assumption).
  assert (Hentry : PriceOracle.cache o1 !! PriceOracle.cacheKeyOf s2 =
                   Some {| PriceOracle.price := p; PriceOracle.timestamp := t |})
    by (rewrite Ho1, Hkey; cbn; apply lookup_insert_eq).
  assert (Httl : PriceOracle.cacheTTL o1 = PriceOracle.cacheTTL o)
    by (rewrite Ho1; reflexivity).
  split; [|split; [|split]].
  - intros Hfresh.
    destruct (run_keeps_live_entry _ _ t' between o1 Hentry
                ltac:(cbn; rewrite Httl; exact Hfresh) Hbetween) as [Hentry2 Httl2].
    fold o2 in Hentry2, Httl2.
    rewrite (getPrice_hit get2 t' t'' s2 o2 _ Hentry2); [reflexivity|].
    cbn. rewrite Httl2, Httl. exact Hfresh.
  - intros Hstale.
    rewrite getPrice_refresh.
    + destruct (PriceOracle.fetchPriceFromCoinGecko get2 s2).1; split; reflexivity.
    + unfold Spec.live. rewrite Hentry, Httl. cbn. apply Z.ltb_ge. assumption.
  - intros o' s. rewrite getPrice_refresh by reflexivity.
    destruct (PriceOracle.fetchPriceFromCoinGecko get2 s).1; split; reflexivity.
  - reflexivity.
Qed.

(** A first call for [ETH] against the mock upstream at time 0; then a
    batch request and a [getPrice] for [USDC]; then, 59999 ms after the
    first call and with the upstream unreachable, a call for [eth]: served
    from the cache. *)
Lemma getPrice_cache_ttl_witness :
  PriceOracle.getPrice Spec.offline 59999 59999 "eth" (Spec.run Spec.history Spec.primed) =
  {| PriceOracle.value :=
       Ok {| PriceOracle.p_usd := Some 2000%float;
             PriceOracle.change24h := None;
             PriceOracle.marketCap := None;
             PriceOracle.volume24h := None |};
     PriceOracle.after := Spec.run Spec.history Spec.primed;
     PriceOracle.sent := [] |}.
Proof.
  refine (proj1 (getPrice_cache_ttl Spec.mockUpstream Spec.offline PriceOracle.new
                   "ETH" "eth" 0 0 59999 59999 _ Spec.history _ _ _ _) _).
  - reflexivity.
  - reflexivity.
  - discriminate.
  - repeat constructor. cbn. lia.
  - reflexivity.
Defined.

(** C10, as it is worded, fails for an identifier that names a property
    every object inherits.  The mock payload has no entry for
    [constructor], yet [response.data["constructor"]] is the inherited
    [Object] function and not [undefined]: [getPrice("constructor")] throws
    nothing, resolves with a record of four [undefined] fields, and
    stores that record under [price_constructor]. *)
Lemma getPrice_inherited_name_cached :
  Spec.live PriceOracle.new (PriceOracle.cacheKeyOf "constructor") 0 = false /\
  Spec.mockUpstream (PriceOracle.singleRequest (PriceOracle.getCoinGeckoId "constructor")) =
    Ok Spec.mockPayload /\
  Spec.mockPayload !! PriceOracle.getCoinGeckoId "constructor" = None /\
  PriceOracle.value
    (PriceOracle.getPrice Spec.mockUpstream 0 0 "constructor" PriceOracle.new) =
    Ok {| PriceOracle.p_usd := None;
          PriceOracle.change24h := None;
          PriceOracle.marketCap := None;
          PriceOracle.volume24h := None |} /\
  PriceOracle.cache PriceOracle.new !! "price_constructor" = None /\
  PriceOracle.cache
    (PriceOracle.after
       (PriceOracle.getPrice Spec.mockUpstream 0 0 "constructor" PriceOracle.new))
    !! "price_constructor" =
    Some {| PriceOracle.price :=
              {| PriceOracle.p_usd := None;
                 PriceOracle.change24h := None;
                 PriceOracle.marketCap := None;
                 PriceOracle.volume24h := None |};
            PriceOracle.timestamp := 0 |}.
Proof. repeat split; vm_compute; reflexivity. Qed.

(** C10, amended.  Error atomicity of [getPrice].  When no live entry
    serves the call, a failure of the upstream fetch (the HTTP client
    rejects, or the payload has no entry for the resolved identifier and
    the identifier is not the name of an inherited property) reaches the
    caller as the error of the call, and the instance afterwards is the
    instance before: no cache entry is added, removed or changed.  More
    generally every rejected call leaves the instance untouched. *)
Theorem getPrice_error_atomic {U : JS.Unicode} :
  forall (get : PriceOracle.upstream) (t t' : Z) (s : string)
         (o : PriceOracle.oracle),
    Spec.live o (PriceOracle.cacheKeyOf s) t = false ->
    (forall e,
       get (PriceOracle.singleRequest (PriceOracle.getCoinGeckoId s)) = Throw e ->
       PriceOracle.getPrice get t t' s o =
         {| PriceOracle.value := Throw e;
            PriceOracle.after := o;
            PriceOracle.sent := [PriceOracle.singleRequest (PriceOracle.getCoinGeckoId s)] |}) /\
    (forall data,
       get (PriceOracle.singleRequest (PriceOracle.getCoinGeckoId s)) = Ok data ->
       data !! PriceOracle.getCoinGeckoId s = None ->
       JS.inherits (PriceOracle.getCoinGeckoId s) = false ->
       exists msg,
         PriceOracle.getPrice get t t' s o =
           {| PriceOracle.value := Throw (TypeError msg);
              PriceOracle.after := o;
              PriceOracle.sent := [PriceOracle.singleRequest (PriceOracle.getCoinGeckoId s)] |}) /\
    (forall e,
       PriceOracle.value (PriceOracle.getPrice get t t' s o) = Throw e ->
       PriceOracle.after (PriceOracle.getPrice get t t' s o) = o).
Proof.
  intros get t t' s o Hlive.
  rewrite (getPrice_refresh get t t' s o Hlive).
  unfold PriceOracle.fetchPriceFromCoinGecko. cbn [fst].
  split; [|split].
  - intros e ->. reflexivity.
  - intros data -> Hnone Hown. unfold PriceOracle.readProperty.
    rewrite Hnone, Hown. eexists. reflexivity.
  - intros e.
    destruct (get _) as [data|e']; [destruct (PriceOracle.readProperty data _)|]; cbn;
      solve [discriminate | reflexivity].
Qed.

(** An entry stored at time 0 has expired at time 60000; the upstream is
    unreachable: the call rejects with the upstream's error and the stale
    entry stays where it was.  And against the mock upstream, which has no
    entry for [dogecoin], a call for [DOGECOIN] rejects with a [TypeError]
    and leaves a fresh instance fresh. *)
Lemma getPrice_error_atomic_witness :
  PriceOracle.getPrice Spec.offline 60000 60000 "eth" Spec.primed =
    {| PriceOracle.value := Throw (UpstreamError "Network Error");
       PriceOracle.after := Spec.primed;
       PriceOracle.sent := [PriceOracle.singleRequest "ethereum"] |} /\
  exists msg,
    PriceOracle.getPrice Spec.mockUpstream 0 0 "DOGECOIN" PriceOracle.new =
      {| PriceOracle.value := Throw (TypeError msg);
         PriceOracle.after := PriceOracle.new;
         PriceOracle.sent := [PriceOracle.singleRequest "dogecoin"] |}.
Proof.
  split.
  - refine (proj1 (getPrice_error_atomic Spec.offline 60000 60000 "eth" Spec.primed _)
              (UpstreamError "Network Error") _).
    + reflexivity.
    + reflexivity.
  - refine (proj1 (proj2 (getPrice_error_atomic Spec.mockUpstream 0 0 "DOGECOIN"
                            PriceOracle.new _))
              Spec.mockPayload _ _ _).
    + reflexivity.
    + reflexivity.
    + reflexivity.
    + reflexivity.
Defined.

(** C7. [getBatchPrices] is a separate, always-live path: whatever the
    cache holds, the call issues its one upstream request, the instance
    (cache included) is the same before and after, and the value it
    resolves to does not depend on the instance at all. *)
Theorem getBatchPrices_bypasses_cache {U : JS.Unicode} :
  forall (get : PriceOracle.upstream) (tokenSymbols : list string)
         (o : PriceOracle.oracle),
    PriceOracle.after (PriceOracle.getBatchPrices get tokenSymbols o) = o /\
    PriceOracle.cache (PriceOracle.after (PriceOracle.getBatchPrices get tokenSymbols o)) =
      PriceOracle.cache o /\
    PriceOracle.sent (PriceOracle.getBatchPrices get tokenSymbols o) =
      [PriceOracle.batchRequest (map PriceOracle.getCoinGeckoId tokenSymbols)] /\
    (forall o' : PriceOracle.oracle,
       PriceOracle.value (PriceOracle.getBatchPrices get tokenSymbols o) =
         PriceOracle.value (PriceOracle.getBatchPrices get tokenSymbols o') /\
       PriceOracle.sent (PriceOracle.getBatchPrices get tokenSymbols o) =
         PriceOracle.sent (PriceOracle.getBatchPrices get tokenSymbols o')).
Proof.
  intros get tokenSymbols o. unfold PriceOracle.getBatchPrices.
  destruct (get _) as [data|e]; cbn; repeat split; reflexivity.
Qed.

Section SymbolResolution.

Import PriceOracle.

Context {U : JS.Unicode}.

Lemma toUpperChar_toLowerChar (c : ascii) :
  JS.toUpperChar (JS.toLowerChar c) = JS.toUpperChar c.
Proof. destruct c as [[] [] [] [] [] [] [] []]; reflexivity. Qed.

Lemma asciiUpper_asciiLower (s : string) :
  JS.asciiUpper (JS.asciiLower s) = JS.asciiUpper s.
Proof.
  unfold JS.asciiUpper, JS.asciiLower.
  induction s as [|c s IH]; cbn; [reflexivity|].
  now rewrite toUpperChar_toLowerChar, IH.
Qed.

Lemma isAsciiChar_toLowerChar (c : ascii) :
  JS.isAsciiChar (JS.toLowerChar c) = JS.isAsciiChar c.
Proof. destruct c as [[] [] [] [] [] [] [] []]; reflexivity. Qed.

(** Changing the case of its ASCII letters keeps a string ASCII, or not. *)
Lemma isAscii_asciiLower (s : string) :
  JS.isAscii (JS.asciiLower s) = JS.isAscii s.
Proof.
  unfold JS.asciiLower.
  induction s as [|c s IH]; cbn; [reflexivity|].
  now rewrite isAsciiChar_toLowerChar, IH.
Qed.

Lemma toLowerCase_ascii (s : string) :
  JS.isAscii s = true -> JS.toLowerCase s = JS.asciiLower s.
Proof. intros H. unfold JS.toLowerCase. now rewrite H. Qed.

Lemma toUpperCase_ascii (s : string) :
  JS.isAscii s = true -> JS.toUpperCase s = JS.asciiUpper s.
Proof. intros H. unfold JS.toUpperCase. now rewrite H. Qed.

(** Two spellings that differ only in the case of ASCII letters have the
    same lower-casing and the same upper-casing. *)
Lemma toLowerCase_variant (s t : string) :
  JS.asciiLower s = JS.asciiLower t -> JS.toLowerCase s = JS.toLowerCase t.
Proof.
  intros H. unfold JS.toLowerCase.
  assert (Hascii : JS.isAscii s = JS.isAscii t)
    by (rewrite <- (isAscii_asciiLower s), <- (isAscii_asciiLower t); now rewrite H).
  rewrite Hascii.
  destruct (JS.isAscii t); [exact H | now apply JS.lowerOther_variant].
Qed.

Lemma toUpperCase_variant (s t : string) :
  JS.asciiLower s = JS.asciiLower t -> JS.toUpperCase s = JS.toUpperCase t.
Proof.
  intros H. unfold JS.toUpperCase.
  assert (Hascii : JS.isAscii s = JS.isAscii t)
    by (rewrite <- (isAscii_asciiLower s), <- (isAscii_asciiLower t); now rewrite H).
  rewrite Hascii.
  destruct (JS.isAscii t); [|now apply JS.upperOther_variant].
  now rewrite <- (asciiUpper_asciiLower s), <- (asciiUpper_asciiLower t), H.
Qed.

(** Two spellings of a symbol that differ only in the case of ASCII
    letters resolve to the same upstream identifier. *)
Lemma getCoinGeckoId_case_insensitive (s1 s2 : string) :
  JS.asciiLower s1 = JS.asciiLower s2 -> getCoinGeckoId s1 = getCoinGeckoId s2.
Proof.
  intros Hcase. unfold getCoinGeckoId.
  now rewrite (toUpperCase_variant s1 s2 Hcase), (toLowerCase_variant s1 s2 Hcase).
Qed.

Lemma mapping_keys_NoDup : NoDup (mapping_entries.*1).
Proof. apply (bool_decide_unpack _). vm_compute. exact I. Qed.

Lemma getCoinGeckoId_mapped (s id : string) :
  (JS.toUpperCase s, id) ∈ mapping_entries -> getCoinGeckoId s = id.
Proof.
  intros Hin. unfold getCoinGeckoId, mapping.
  now rewrite (elem_of_list_to_map_1 _ _ _ mapping_keys_NoDup Hin).
Qed.

Lemma getCoinGeckoId_fallback (s : string) :
  (forall id, (JS.toUpperCase s, id) ∉ mapping_entries) ->
  getCoinGeckoId s = JS.toLowerCase s.
Proof.
  intros Hnot. unfold getCoinGeckoId, mapping.
  rewrite (not_elem_of_list_to_map_1 mapping_entries (JS.toUpperCase s)); [reflexivity|].
  intros ([k id] & Hk & Hin)%list_elem_of_fmap. cbn in Hk. subst k.
  exact (Hnot id Hin).
Qed.

(** The loop of [getBatchPrices], read back key by key: a requested symbol
    other than [__proto__] holds what the payload yields under its
    identifier, any other key is as before. *)
Lemma assignPrices_own (data : gmap string coinData) (coinIds : list string)
    (tokenSymbols : list string) :
  forall (index : nat) (prices : pricesObject) (s : string),
    (forall k sym, tokenSymbols !! k = Some sym ->
                   coinIds !! (index + k)%nat = Some (getCoinGeckoId sym)) ->
    own (assignPrices data coinIds index tokenSymbols prices) !! s =
      if decide (s ∈ tokenSymbols /\ s <> "__proto__")
      then Some (readProperty data (getCoinGeckoId s))
      else own prices !! s.
Proof.
  induction tokenSymbols as [|symbol rest IH]; intros index prices s Hids; cbn.
  - rewrite decide_False; [reflexivity|]. intros [Hin _]. inversion Hin.
  - rewrite IH.
    + pose proof (Hids 0%nat symbol eq_refl) as H0.
      rewrite Nat.add_0_r in H0. rewrite H0. cbn [default].
      unfold assign.
      destruct (String.eqb symbol "__proto__") eqn:Hproto.
      * apply String.eqb_eq in Hproto. subst symbol.
        assert (Hown : forall v,
                  own match v with
                      | Undefined => prices
                      | _ => {| own := own prices; proto := v |}
                      end = own prices) by (intros []; reflexivity).
        rewrite Hown.
        destruct (decide (s ∈ rest /\ s <> "__proto__")) as [[Hin Hne]|Hn].
        -- rewrite decide_True; [reflexivity|]. split; [now right | exact Hne].
        -- rewrite decide_False; [reflexivity|].
           intros [[->|Hin]%elem_of_cons Hne]; [now apply Hne | now apply Hn].
      * apply String.eqb_neq in Hproto. cbn [own].
        destruct (decide (s ∈ rest /\ s <> "__proto__")) as [[Hin Hne]|Hn].
        -- rewrite decide_True; [reflexivity|]. split; [now right | exact Hne].
        -- destruct (decide (s = symbol)) as [->|Hs].
           ++ rewrite decide_True by (split; [now left | exact Hproto]).
              apply lookup_insert_eq.
           ++ rewrite decide_False.
              ** now apply lookup_insert_ne.
              ** intros [[->|Hin]%elem_of_cons Hne]; [now apply Hs | now apply Hn].
    + intros k sym Hk. replace (S index + k)%nat with (index + S k)%nat by lia.
      now apply Hids.
Qed.

(** The identifiers handed to the loop are those of the symbols, position
    by position. *)
Lemma coinIds_aligned (tokenSymbols : list string) :
  forall k sym, tokenSymbols !! k = Some sym ->
    map getCoinGeckoId tokenSymbols !! (0 + k)%nat = Some (getCoinGeckoId sym).
Proof.
  intros k sym Hk. cbn. change (map ?f ?l) with (f <$> l).
  now rewrite list_lookup_fmap, Hk.
Qed.

End SymbolResolution.

(** C5, as it is worded, fails in three places.  The request carries the
    identifier of every requested symbol, duplicates included, not the set
    of distinct identifiers: for [["ETH", "eth", "USDC"]] the [ids]
    parameter is ["ethereum,ethereum,usd-coin"] where the distinct
    identifiers would give ["ethereum,usd-coin"].  Not every requested
    symbol receives a result: the assignment [prices["__proto__"] = ...]
    creates no key, so the object returned for [["__proto__", "ETH"]] has
    [ETH] as its only key.  And outside ASCII the resolution does depend
    on case: [LINK] written with a KELVIN SIGN for its last letter
    lower-cases to [link] as [LINK] does, but its upper-casing is not in
    the table, so it resolves to [link] where [LINK] resolves to
    [chainlink]. *)
Lemma getBatchPrices_sends_duplicates :
  PriceOracle.sent
    (PriceOracle.getBatchPrices Spec.mockUpstream ["ETH"; "eth"; "USDC"] PriceOracle.new) =
    [PriceOracle.batchRequest ["ethereum"; "ethereum"; "usd-coin"]] /\
  PriceOracle.ids (PriceOracle.batchRequest ["ethereum"; "ethereum"; "usd-coin"]) =
    "ethereum,ethereum,usd-coin" /\
  Spec.distinctIds ["ETH"; "eth"; "USDC"] = ["ethereum"; "usd-coin"] /\
  PriceOracle.ids (PriceOracle.batchRequest (Spec.distinctIds ["ETH"; "eth"; "USDC"])) =
    "ethereum,usd-coin" /\
  PriceOracle.sent
    (PriceOracle.getBatchPrices Spec.mockUpstream ["ETH"; "eth"; "USDC"] PriceOracle.new) <>
    [PriceOracle.batchRequest (Spec.distinctIds ["ETH"; "eth"; "USDC"])] /\
  PriceOracle.value
    (PriceOracle.getBatchPrices Spec.mockUpstream ["__proto__"; "ETH"] PriceOracle.new) =
    Ok {| PriceOracle.own :=
            <["ETH" := PriceOracle.Entry (Spec.usdOnly 2000%float)]> ∅;
          PriceOracle.proto := PriceOracle.Inherited "__proto__" |} /\
  JS.toLowerCase (U := JS.kelvin) ("LIN" +:+ JS.kelvinSign) =
    JS.toLowerCase (U := JS.kelvin) "LINK" /\
  PriceOracle.getCoinGeckoId (U := JS.kelvin) ("LIN" +:+ JS.kelvinSign) = "link" /\
  PriceOracle.getCoinGeckoId (U := JS.kelvin) "LINK" = "chainlink".
Proof.
  split; [reflexivity|]. split; [reflexivity|]. split; [reflexivity|].
  split; [reflexivity|]. split; [discriminate|].
  split; [vm_compute; reflexivity|].
  split; [reflexivity|]. split; reflexivity.
Qed.

(** C5, amended.  [getBatchPrices] issues one upstream request, whose
    [ids] are the identifiers of the requested symbols in request order,
    duplicates kept, joined by commas; and it hands the payload back under
    every requested symbol other than [__proto__]: each one holds what the
    payload yields under its identifier (the entry when there is one), no
    other key is present, and [__proto__] never is.  Spellings of a symbol
    that differ only in the case of ASCII letters resolve to the same
    identifier.
    Against the upstream that answers
    [{ethereum: {usd: 2000}, "usd-coin": {usd: 1}}], the request
    [["ETH", "eth", "USDC"]] yields
    [{ETH: {usd: 2000}, eth: {usd: 2000}, USDC: {usd: 1}}]. *)
Theorem getBatchPrices_redistributes {U : JS.Unicode} :
  (forall (get : PriceOracle.upstream) (tokenSymbols : list string)
          (o : PriceOracle.oracle) (data : gmap string PriceOracle.coinData),
     get (PriceOracle.batchRequest (map PriceOracle.getCoinGeckoId tokenSymbols)) = Ok data ->
     (exists req,
        PriceOracle.sent (PriceOracle.getBatchPrices get tokenSymbols o) = [req] /\
        get req = Ok data /\
        PriceOracle.ids req = JS.join "," (map PriceOracle.getCoinGeckoId tokenSymbols)) /\
     exists prices,
       PriceOracle.value (PriceOracle.getBatchPrices get tokenSymbols o) = Ok prices /\
       (forall s, s ∈ tokenSymbols -> s <> "__proto__" ->
          PriceOracle.own prices !! s =
            Some (PriceOracle.readProperty data (PriceOracle.getCoinGeckoId s))) /\
       (forall s d, s ∈ tokenSymbols -> s <> "__proto__" ->
          data !! PriceOracle.getCoinGeckoId s = Some d ->
          PriceOracle.own prices !! s = Some (PriceOracle.Entry d)) /\
       (forall s, s ∉ tokenSymbols -> PriceOracle.own prices !! s = None) /\
       PriceOracle.own prices !! "__proto__" = None) /\
  (forall s1 s2 : string,
     JS.asciiLower s1 = JS.asciiLower s2 ->
     PriceOracle.getCoinGeckoId s1 = PriceOracle.getCoinGeckoId s2) /\
  (forall o : PriceOracle.oracle,
     PriceOracle.getBatchPrices Spec.mockUpstream ["ETH"; "eth"; "USDC"] o =
       {| PriceOracle.value :=
            Ok {| PriceOracle.own :=
                    <["ETH" := PriceOracle.Entry (Spec.usdOnly 2000%float)]>
                      (<["eth" := PriceOracle.Entry (Spec.usdOnly 2000%float)]>
                         (<["USDC" := PriceOracle.Entry (Spec.usdOnly 1%float)]> ∅));
                  PriceOracle.proto := PriceOracle.Inherited "__proto__" |};
          PriceOracle.after := o;
          PriceOracle.sent :=
            [ {| PriceOracle.url := "https://api.coingecko.com/api/v3/simple/price";
                 PriceOracle.ids := "ethereum,ethereum,usd-coin";
                 PriceOracle.vs_currencies := "usd";
                 PriceOracle.include_24hr_change := Some true;
                 PriceOracle.include_market_cap := None;
                 PriceOracle.include_24hr_vol := None |} ] |}).
Proof.
  split; [|split].
  - intros get tokenSymbols o data Hget.
    unfold PriceOracle.getBatchPrices. rewrite Hget. cbn.
    split; [eexists; split; [reflexivity | split; [exact Hget | reflexivity]]|].
    eexists. split; [reflexivity|].
    pose proof (coinIds_aligned tokenSymbols) as Hids.
    assert (Hin : forall s, s ∈ tokenSymbols -> s <> "__proto__" ->
              PriceOracle.own
                (PriceOracle.assignPrices data (map PriceOracle.getCoinGeckoId tokenSymbols)
                   0 tokenSymbols PriceOracle.emptyObject) !! s =
              Some (PriceOracle.readProperty data (PriceOracle.getCoinGeckoId s))).
    { intros s Hs Hne. rewrite (assignPrices_own _ _ _ _ _ _ Hids).
      now rewrite decide_True. }
    split; [exact Hin|]. split; [|split].
    + intros s d Hs Hne Hd. rewrite (Hin s Hs Hne).
      unfold PriceOracle.readProperty. now rewrite Hd.
    + intros s Hs. rewrite (assignPrices_own _ _ _ _ _ _ Hids).
      rewrite decide_False by (intros [? _]; contradiction). reflexivity.
    + rewrite (assignPrices_own _ _ _ _ _ _ Hids).
      rewrite decide_False by (intros [_ Hne]; now apply Hne). reflexivity.
  - exact getCoinGeckoId_case_insensitive.
  - intros o. vm_compute. reflexivity.
Qed.

(** The general part of C5 at the request [["ETH", "eth", "USDC"]] and the
    mock upstream: the symbol [eth] receives the entry of [ethereum]. *)
Lemma getBatchPrices_redistributes_witness :
  exists prices,
    PriceOracle.value
      (PriceOracle.getBatchPrices Spec.mockUpstream ["ETH"; "eth"; "USDC"] PriceOracle.new)
      = Ok prices /\
    PriceOracle.own prices !! "eth" = Some (PriceOracle.Entry (Spec.usdOnly 2000%float)).
Proof.
  destruct (proj1 getBatchPrices_redistributes Spec.mockUpstream
              ["ETH"; "eth"; "USDC"] PriceOracle.new Spec.mockPayload eq_refl)
    as (_ & prices & Hval & _ & Hin & _).
  exists prices. split; [exact Hval|].
  apply (Hin "eth").
  - apply (bool_decide_unpack _). vm_compute. exact I.
  - discriminate.
  - reflexivity.
Defined.

(** C6, as the specification words it, fails on a symbol with surrounding
    blanks: the source never trims.  For [" ETH"] the specification's
    resolution gives [ethereum], while [getPrice] asks the upstream for
    [" eth"]. *)
Lemma getPrice_identifier_untrimmed :
  PriceOracle.sent (PriceOracle.getPrice Spec.offline 0 0 " ETH" PriceOracle.new) =
    [PriceOracle.singleRequest " eth"] /\
  PriceOracle.getCoinGeckoId " ETH" = " eth" /\
  Spec.resolveSymbol " ETH" = "ethereum" /\
  PriceOracle.getCoinGeckoId " ETH" <> Spec.resolveSymbol " ETH".
Proof. repeat split; try reflexivity. discriminate. Qed.

(** C6, amended.  When no live entry serves the call, [getPrice] asks the
    upstream for exactly one identifier, obtained from the symbol as
    given (no trimming): the table entry of the upper-cased symbol when
    the table has one, and the lower-cased symbol otherwise.  On a symbol
    that trimming leaves unchanged this is the resolution of the
    specification. *)
Theorem getPrice_resolves_identifier {U : JS.Unicode} :
  forall (get : PriceOracle.upstream) (t t' : Z) (s : string)
         (o : PriceOracle.oracle),
    Spec.live o (PriceOracle.cacheKeyOf s) t = false ->
    PriceOracle.sent (PriceOracle.getPrice get t t' s o) =
      [PriceOracle.singleRequest (PriceOracle.getCoinGeckoId s)] /\
    (forall id, (JS.toUpperCase s, id) ∈ PriceOracle.mapping_entries ->
                PriceOracle.getCoinGeckoId s = id) /\
    ((forall id, (JS.toUpperCase s, id) ∉ PriceOracle.mapping_entries) ->
     PriceOracle.getCoinGeckoId s = JS.toLowerCase s) /\
    (JS.trim s = s -> PriceOracle.getCoinGeckoId s = Spec.resolveSymbol s).
Proof.
  intros get t t' s o Hlive. repeat split.
  - rewrite (getPrice_refresh get t t' s o Hlive).
    destruct (PriceOracle.fetchPriceFromCoinGecko get s).1; reflexivity.
  - apply getCoinGeckoId_mapped.
  - apply getCoinGeckoId_fallback.
  - intros Htrim. unfold Spec.resolveSymbol. rewrite Htrim. reflexivity.
Qed.

(** On an empty cache, [getPrice("Eth")] asks the upstream for [ethereum]. *)
Lemma getPrice_resolves_identifier_witness :
  PriceOracle.sent (PriceOracle.getPrice Spec.offline 0 0 "Eth" PriceOracle.new) =
    [PriceOracle.singleRequest "ethereum"].
Proof.
  exact (proj1 (getPrice_resolves_identifier Spec.offline 0 0 "Eth" PriceOracle.new eq_refl)).
Defined.

(** ** Decimal rendering *)

Section NumeralFacts.

Lemma append_cons (c : ascii) (s t : string) :
  String c s +:+ t = String c (s +:+ t).
Proof. reflexivity. Qed.

Lemma length_append (s t : string) :
  String.length (s +:+ t) = (String.length s + String.length t)%nat.
Proof. induction s as [|c s IH]; [reflexivity|]. rewrite append_cons. cbn. now rewrite IH. Qed.

Lemma digitValue_not_point (c : ascii) (d : N) :
  Numeral.digitValue c = Some d -> Ascii.eqb c "." = false.
Proof.
  destruct (Ascii.eqb c ".") eqn:E; [|reflexivity].
  apply Ascii.eqb_eq in E. subst c. discriminate.
Qed.

Lemma digitsValue_app (s t : string) :
  forall acc, Numeral.digitsValue acc (s +:+ t) =
              Numeral.digitsValue acc s ≫= fun a => Numeral.digitsValue a t.
Proof.
  induction s as [|c s IH]; intros acc; [reflexivity|].
  rewrite append_cons. cbn.
  destruct (Numeral.digitValue c); [apply IH | reflexivity].
Qed.

(** Digits of a [Decimal.uint]. *)
Lemma of_uint_acc_value (u : Decimal.uint) :
  forall p, N.pos (Pos.of_uint_acc u p) =
            (N.pos p * 10 ^ N.of_nat (Decimal.nb_digits u) + N.of_uint u)%N.
Proof.
  unfold N.of_uint.
  induction u as [|u IH|u IH|u IH|u IH|u IH|u IH|u IH|u IH|u IH|u IH]; intros p;
    cbn [Pos.of_uint_acc Pos.of_uint Decimal.nb_digits];
    [cbn; lia | rewrite IH | rewrite IH, (IH 1%positive) | rewrite IH, (IH 2%positive)
     | rewrite IH, (IH 3%positive) | rewrite IH, (IH 4%positive) | rewrite IH, (IH 5%positive)
     | rewrite IH, (IH 6%positive) | rewrite IH, (IH 7%positive) | rewrite IH, (IH 8%positive)
     | rewrite IH, (IH 9%positive)];
    rewrite Nat2N.inj_succ, N.pow_succ_r'; lia.
Qed.

Lemma digitsValue_string_of_uint (u : Decimal.uint) :
  forall acc,
    Numeral.digitsValue acc (NilEmpty.string_of_uint u) =
    Some (acc * 10 ^ N.of_nat (Decimal.nb_digits u) + N.of_uint u)%N.
Proof.
  induction u as [|u IH|u IH|u IH|u IH|u IH|u IH|u IH|u IH|u IH|u IH]; intros acc;
    cbn [NilEmpty.string_of_uint Numeral.digitsValue Decimal.nb_digits];
    [cbn; f_equal; lia | ..];
    change (Numeral.digitValue _) with (Some 0%N) ||
    change (Numeral.digitValue _) with (Some 1%N) ||
    change (Numeral.digitValue _) with (Some 2%N) ||
    change (Numeral.digitValue _) with (Some 3%N) ||
    change (Numeral.digitValue _) with (Some 4%N) ||
    change (Numeral.digitValue _) with (Some 5%N) ||
    change (Numeral.digitValue _) with (Some 6%N) ||
    change (Numeral.digitValue _) with (Some 7%N) ||
    change (Numeral.digitValue _) with (Some 8%N) ||
    change (Numeral.digitValue _) with (Some 9%N);
    cbv iota; rewrite IH; f_equal;
    unfold N.of_uint; cbn [Pos.of_uint];
    rewrite ?of_uint_acc_value; unfold N.of_uint;
    rewrite Nat2N.inj_succ, N.pow_succ_r'; lia.
Qed.


Lemma length_string_of_uint (u : Decimal.uint) :
  String.length (NilEmpty.string_of_uint u) = Decimal.nb_digits u.
Proof. induction u; cbn; congruence. Qed.

Lemma to_uint_nonnil (m : N) : N.to_uint m <> Decimal.Nil.
Proof.
  destruct m as [|p]; [discriminate|]. apply DecimalPos.Unsigned.to_uint_nonnil.
Qed.

Lemma toString_unfold (n : Z) :
  Ethers.toString n = NilEmpty.string_of_uint (N.to_uint (Z.to_N n)).
Proof.
  unfold Ethers.toString, NilZero.string_of_uint.
  destruct (N.to_uint (Z.to_N n)) eqn:E; try reflexivity.
  exfalso. revert E. apply to_uint_nonnil.
Qed.

(** [toString] writes the digits of its argument. *)
Lemma toString_value (n : Z) (acc : N) :
  Numeral.digitsValue acc (Ethers.toString n) =
  Some (acc * 10 ^ N.of_nat (String.length (Ethers.toString n)) + Z.to_N n)%N.
Proof.
  rewrite toString_unfold, digitsValue_string_of_uint, length_string_of_uint.
  now rewrite DecimalN.Unsigned.of_to.
Qed.

Lemma toString_nonempty (n : Z) : Ethers.toString n <> EmptyString.
Proof.
  rewrite toString_unfold. intros E.
  apply (f_equal String.length) in E. rewrite length_string_of_uint in E.
  apply nb_digits_0 in E. revert E. apply to_uint_nonnil.
Qed.

Lemma to_uint_normal (m : N) : Decimal.unorm (N.to_uint m) = N.to_uint m.
Proof.
  rewrite <- (DecimalN.Unsigned.to_of (N.to_uint m)).
  now rewrite DecimalN.Unsigned.of_to.
Qed.

(** A number below [10^d] is written with at most [d] digits. *)
Lemma toString_length (n : Z) (d : nat) :
  (1 <= d)%nat -> (Z.to_N n < 10 ^ N.of_nat d)%N ->
  (String.length (Ethers.toString n) <= d)%nat.
Proof.
  intros Hd Hlt. rewrite toString_unfold, length_string_of_uint.
  pose proof (to_uint_normal (Z.to_N n)) as Hnorm.
  pose proof (DecimalN.Unsigned.of_to (Z.to_N n)) as Hval.
  destruct (N.to_uint (Z.to_N n)) as [|u|u|u|u|u|u|u|u|u|u] eqn:Hu;
    [ cbn; lia | .. ].
  1: { rewrite unorm_D0 in Hnorm.
    destruct u as [|w|w|w|w|w|w|w|w|w|w]; [cbn; lia | ..];
      (exfalso;
       match type of Hnorm with
       | Decimal.unorm ?v = _ =>
           assert (Hnb : (Decimal.nb_digits (Decimal.unorm v) <= Decimal.nb_digits v)%nat)
             by (apply nb_digits_unorm; discriminate)
       end;
       rewrite Hnorm in Hnb; cbn in Hnb; lia). }
  all: unfold N.of_uint in Hval; cbn [Pos.of_uint] in Hval;
    rewrite of_uint_acc_value in Hval; cbn [Decimal.nb_digits];
    assert (Hpow : (10 ^ N.of_nat (Decimal.nb_digits u) < 10 ^ N.of_nat d)%N) by nia;
    apply N.pow_lt_mono_r_iff in Hpow; lia.
Qed.


Lemma splitAtPoint_digits (s : string) :
  forall acc v, Numeral.digitsValue acc s = Some v ->
                Numeral.splitAtPoint s = (s, None).
Proof.
  induction s as [|c s IH]; intros acc v; cbn; [reflexivity|].
  destruct (Numeral.digitValue c) as [d|] eqn:Hc; [|discriminate].
  intros Hv. rewrite (digitValue_not_point _ _ Hc), (IH _ _ Hv). reflexivity.
Qed.

Lemma splitAtPoint_point (s f : string) :
  forall acc v, Numeral.digitsValue acc s = Some v ->
                Numeral.splitAtPoint (s +:+ String "." f) = (s, Some f).
Proof.
  induction s as [|c s IH]; intros acc v; [reflexivity|].
  rewrite append_cons. cbn.
  destruct (Numeral.digitValue c) as [d|] eqn:Hc; [|discriminate].
  intros Hv. rewrite (digitValue_not_point _ _ Hc), (IH _ _ Hv). reflexivity.
Qed.

Lemma length_zeros (j : nat) : String.length (Ethers.zeros j) = j.
Proof. induction j; cbn; congruence. Qed.

Lemma digitsValue_zeros (j : nat) :
  forall acc, Numeral.digitsValue acc (Ethers.zeros j) = Some (acc * 10 ^ N.of_nat j)%N.
Proof.
  induction j as [|j IH]; intros acc; cbn [Ethers.zeros Numeral.digitsValue].
  - f_equal. cbn. lia.
  - change (Numeral.digitValue "0") with (Some 0%N). cbv iota.
    rewrite IH. f_equal. rewrite Nat2N.inj_succ, N.pow_succ_r'. lia.
Qed.

(** Stripping removes a run of zeros from the end, and nothing else. *)
Lemma dropTrailingZeros_spec (s : string) :
  exists j, s = Ethers.dropTrailingZeros s +:+ Ethers.zeros j.
Proof.
  induction s as [|c s [j IH]]; [exists O; reflexivity|].
  cbn [Ethers.dropTrailingZeros].
  destruct (Ethers.dropTrailingZeros s) as [|c' t] eqn:Ht.
  - destruct (Ascii.eqb c "0") eqn:Hc.
    + apply Ascii.eqb_eq in Hc. subst c. exists (S j). cbn in IH |- *. now rewrite IH at 1.
    + exists j. rewrite append_cons. cbn in IH |- *. now rewrite IH at 1.
  - exists j. rewrite append_cons. now rewrite IH at 1.
Qed.

Lemma significant_nonempty (s : string) : Ethers.significant s <> EmptyString.
Proof.
  unfold Ethers.significant. destruct (Ethers.dropTrailingZeros s); discriminate.
Qed.

(** Left padding of the digits of a number below [10^d] gives exactly [d]
    digits with the same value. *)
Lemma padStart_value (d : nat) (m : Z) :
  (1 <= d)%nat -> 0 <= m < 10 ^ Z.of_nat d ->
  String.length (Ethers.padStart d (Ethers.toString m)) = d /\
  forall acc, Numeral.digitsValue acc (Ethers.padStart d (Ethers.toString m)) =
              Some (acc * 10 ^ N.of_nat d + Z.to_N m)%N.
Proof.
  intros Hd [Hm0 Hm].
  assert (Hlen : (String.length (Ethers.toString m) <= d)%nat).
  { apply toString_length; [assumption|].
    apply N2Z.inj_lt. rewrite Z2N.id by assumption.
    rewrite N2Z.inj_pow, nat_N_Z. exact Hm. }
  unfold Ethers.padStart. split.
  - rewrite length_append, length_zeros. lia.
  - intros acc. rewrite digitsValue_app, digitsValue_zeros. cbn [mbind option_bind].
    rewrite toString_value. f_equal.
    rewrite <- N.mul_assoc, <- N.pow_add_r. do 3 f_equal. lia.
Qed.


(** What [formatUnits] renders: on a non-negative [value] and a size within
    range it returns a numeral that denotes [value / 10^decimals], written
    with at most [decimals] fraction digits. *)
Lemma formatUnits_value (a d : Z) :
  0 <= a -> 0 <= d <= 256 ->
  exists (p : string) (n : N) (k : nat),
    Ethers.formatUnits a d = Ok p /\
    Numeral.value p = Some (n, k) /\
    (k <= Z.to_nat d)%nat /\
    (n * 10 ^ N.of_nat (Z.to_nat d - k) = Z.to_N a)%N.
Proof.
  intros Ha [Hd Hd']. unfold Ethers.formatUnits.
  assert (Hrange : (0 <=? d) && (d <=? 256) = true)
    by (apply andb_true_intro; split; apply Z.leb_le; lia).
  rewrite Hrange.
  assert (Hneg : (a <? 0) = false) by (apply Z.ltb_ge; lia).
  rewrite Hneg, (Z.abs_eq a Ha).
  destruct (d =? 0) eqn:Hd0.
  - (* no fraction *)
    apply Z.eqb_eq in Hd0. subst d. change (10 ^ 0) with 1. rewrite Z.div_1_r.
    exists (Ethers.toString a), (Z.to_N a), O.
    split; [reflexivity|]. split; [|split; [lia | change (N.of_nat (Z.to_nat 0 - 0)) with 0%N; rewrite N.pow_0_r; lia]].
    unfold Numeral.value.
    pose proof (toString_value a 0) as Hv.
    rewrite (splitAtPoint_digits _ _ _ Hv).
    destruct (Ethers.toString a) as [|c s] eqn:Hs;
      [exfalso; now apply (toString_nonempty a)|].
    rewrite Hv. do 2 f_equal; lia.
  - apply Z.eqb_neq in Hd0.
    set (d' := Z.to_nat d).
    assert (Hd'1 : (1 <= d')%nat) by lia.
    assert (Hpow : 0 < 10 ^ d) by (apply Z.pow_pos_nonneg; lia).
    assert (Hdd : Z.of_nat d' = d) by lia.
    assert (Hm : 0 <= a mod 10 ^ d < 10 ^ Z.of_nat d')
      by (rewrite Hdd; apply Z.mod_pos_bound; assumption).
    destruct (padStart_value d' (a mod 10 ^ d) Hd'1 Hm) as [Hlen Hpad].
    set (pad := Ethers.padStart d' (Ethers.toString (a mod 10 ^ d))) in *.
    set (W := Ethers.toString (a / 10 ^ d)).
    pose proof (toString_value (a / 10 ^ d) 0) as HW. fold W in HW.
    assert (Hfull : Numeral.digitsValue 0 (W +:+ pad) = Some (Z.to_N a)).
    { rewrite digitsValue_app, HW. cbn [mbind option_bind]. rewrite Hpad. f_equal.
      apply N2Z.inj.
      rewrite N.mul_0_l, N.add_0_l.
      rewrite N2Z.inj_add, N2Z.inj_mul, N2Z.inj_pow, nat_N_Z, Hdd.
      rewrite !Z2N.id by (first [assumption | apply Z.div_pos; lia | lia]).
      change (Z.of_N 10) with 10.
      pose proof (Z.div_mod a (10 ^ d)). lia. }
    destruct (dropTrailingZeros_spec pad) as [j Hj].
    assert (Hsplit : forall F,
              Numeral.splitAtPoint (W +:+ "." +:+ F) = (W, Some F))
      by (intros F; apply (splitAtPoint_point _ _ _ _ HW)).
    assert (HWne : W <> EmptyString) by apply toString_nonempty.
    unfold Ethers.significant.
    destruct (Ethers.dropTrailingZeros pad) as [|c t] eqn:Hdrop.
    + (* the fraction is all zeros *)
      change ("" +:+ Ethers.zeros j) with (Ethers.zeros j) in Hj.
      assert (Hjd : j = d')
        by (rewrite <- Hlen, Hj; symmetry; apply length_zeros).
      rewrite Hj, digitsValue_app, HW in Hfull. cbn [mbind option_bind] in Hfull.
      rewrite digitsValue_zeros in Hfull. injection Hfull as Hfull.
      exists (W +:+ "." +:+ "0"), (Z.to_N (a / 10 ^ d) * 10)%N, 1%nat.
      split; [reflexivity|]. split; [|split; [lia|]].
      * unfold Numeral.value. rewrite Hsplit.
        destruct W as [|c0 W0] eqn:HWeq; [contradiction|].
        rewrite <- HWeq in *.
        rewrite digitsValue_app, HW. cbn [mbind option_bind].
        cbn [Numeral.digitsValue String.length].
        change (Numeral.digitValue "0") with (Some 0%N). cbv iota.
        do 2 f_equal; lia.
      * rewrite <- Hfull, Hjd.
        replace (N.of_nat d') with (N.succ (N.of_nat (d' - 1))) by lia.
        rewrite N.pow_succ_r'. lia.
    + (* the fraction ends in a non-zero digit *)
      set (F := String c t) in *.
      assert (Hk : (String.length F + j)%nat = d')
        by (rewrite <- Hlen, Hj at 1; rewrite length_append, length_zeros; reflexivity).
      rewrite Hj in Hfull.
      replace (W +:+ F +:+ Ethers.zeros j) with ((W +:+ F) +:+ Ethers.zeros j) in Hfull
        by (clear; induction W as [|c0 W IH]; [reflexivity|]; rewrite !append_cons; now rewrite IH).
      rewrite digitsValue_app in Hfull.
      destruct (Numeral.digitsValue 0 (W +:+ F)) as [n|] eqn:Hn; [|discriminate].
      cbn [mbind option_bind] in Hfull. rewrite digitsValue_zeros in Hfull.
      injection Hfull as Hfull.
      exists (W +:+ "." +:+ F), n, (String.length F).
      split; [reflexivity|]. split; [|split; [lia|]].
      * unfold Numeral.value. rewrite Hsplit.
        destruct W as [|c0 W0] eqn:HWeq; [contradiction|].
        rewrite <- HWeq in *.
        unfold F at 1. fold F. rewrite Hn. reflexivity.
      * rewrite <- Hfull. do 3 f_equal; lia.
Qed.

End NumeralFacts.

(** ** Uniswap V3 helpers *)

Section PriceConversion.

Import UniswapAnalytics.




End PriceConversion.

(** C1, at the input the specification singles out.  For
    [sqrtPriceX96 = 2^96] and 18 decimals on both sides the source returns
    the numeral of [2^96 / 10^18], not [1.0]: the squared square-root price
    is divided by [2^96] once instead of by [2^192] (and the result is
    scaled down by [10^token1Decimals] a second time when it is
    rendered). *)
Theorem calculatePrice_at_unit_sqrtPrice :
  UniswapAnalytics.calculatePrice (2 ^ 96) 18 18 =
    Ok "79228162514.264337593543950336" /\
  Numeral.value "79228162514.264337593543950336" = Some ((2 ^ 96)%N, 18%nat) /\
  Numeral.value "1.0" = Some (10%N, 1%nat) /\
  Numeral.lt (10%N, 1%nat) ((2 ^ 96)%N, 18%nat) /\
  Ethers.formatUnits (10 ^ 18) 18 = Ok "1.0" /\
  UniswapAnalytics.calculatePrice (2 ^ 96) 18 18 <> Ok "1.0".
Proof.
  assert (H : UniswapAnalytics.calculatePrice (2 ^ 96) 18 18 =
              Ok "79228162514.264337593543950336") by (vm_compute; reflexivity).
  split; [exact H|].
  split; [vm_compute; reflexivity|].
  split; [vm_compute; reflexivity|].
  split; [vm_compute; reflexivity|].
  split; [vm_compute; reflexivity|].
  rewrite H. discriminate.
Qed.


Section PriceOrder.


End PriceOrder.



Section PoolAddress.

Import UniswapAnalytics.

Context {U : JS.Unicode}.

Lemma lt_asym (a b : string) : JS.lt a b = true -> JS.lt b a = false.
Proof.
  unfold JS.lt. rewrite (andb_comm (JS.isAscii b)).
  destruct (JS.isAscii a && JS.isAscii b); [|apply JS.ltOther_asym].
  unfold String.ltb. rewrite (String.compare_antisym a b).
  destruct (String.compare b a); cbn; congruence.
Qed.

Lemma lt_total (a b : string) : JS.lt a b = false -> JS.lt b a = false -> a = b.
Proof.
  unfold JS.lt. rewrite (andb_comm (JS.isAscii b)).
  destruct (JS.isAscii a && JS.isAscii b); [|apply JS.ltOther_total].
  unfold String.ltb. rewrite (String.compare_antisym a b).
  destruct (String.compare b a) eqn:Hc; cbn; try congruence.
  intros _ _. symmetry. now apply String.compare_eq_iff.
Qed.

Lemma hexDigit_toLowerChar (c : ascii) :
  Spec.hexDigit (JS.toLowerChar c) = Spec.hexDigit c.
Proof. destruct c as [[] [] [] [] [] [] [] []]; reflexivity. Qed.

Lemma hexDigits_asciiLower (s : string) :
  Spec.hexDigits (JS.asciiLower s) = Spec.hexDigits s.
Proof.
  unfold JS.asciiLower. induction s as [|c s IH]; cbn; [reflexivity|].
  now rewrite hexDigit_toLowerChar, IH.
Qed.

Lemma hexDigit_isAsciiChar (c : ascii) (d : N) :
  Spec.hexDigit c = Some d -> JS.isAsciiChar c = true.
Proof. destruct c as [[] [] [] [] [] [] [] []]; vm_compute; congruence. Qed.

(** A string of hexadecimal digits is ASCII. *)
Lemma hexDigits_isAscii (s : string) :
  forall ds, Spec.hexDigits s = Some ds -> JS.isAscii s = true.
Proof.
  induction s as [|c s IH]; intros ds; cbn; [reflexivity|].
  destruct (Spec.hexDigit c) as [d|] eqn:Hd; [|discriminate].
  destruct (Spec.hexDigits s) as [ds'|]; [|discriminate].
  intros _. now rewrite (hexDigit_isAsciiChar c d Hd), (IH ds').
Qed.

(** Lower-casing a well-formed address keeps it well formed, with the
    same value. *)
Lemma addressValue_toLowerCase (s : string) (a : list N) :
  Spec.addressValue s = Some a ->
  Spec.addressValue (JS.toLowerCase s) = Some a.
Proof.
  destruct s as [|c0 [|c1 body]]; try discriminate.
  - destruct c0 as [[] [] [] [] [] [] [] []]; discriminate.
  - destruct c0 as [[] [] [] [] [] [] [] []]; try discriminate.
    destruct c1 as [[] [] [] [] [] [] [] []]; try discriminate.
    intros H.
    assert (Hascii : JS.isAscii (String "0" (String "x" body)) = true).
    { cbn in H |- *. destruct (Spec.hexDigits body) as [ds|] eqn:Hds; [|discriminate].
      exact (hexDigits_isAscii body ds Hds). }
    rewrite (toLowerCase_ascii _ Hascii).
    change (JS.asciiLower (String "0" (String "x" body)))
      with (String "0" (String "x" (JS.asciiLower body))).
    cbn in H |- *. rewrite hexDigits_asciiLower. exact H.
Qed.

End PoolAddress.

(** C2. For two well-formed 20-byte hex addresses with different values
    and any fee tier, [computePoolAddress] gives the same outcome (the same
    address, byte for byte, or the same rejection by an ethers primitive)
    whichever token is passed first, for every behaviour of the hashing
    and encoding primitives: both calls hand the primitives the same
    ordered pair. *)
Theorem computePoolAddress_order_independent {U : JS.Unicode} :
  forall (E : Ethers.primitives) (tokenA tokenB : string) (fee : Z)
         (a b : list N),
    Spec.addressValue tokenA = Some a ->
    Spec.addressValue tokenB = Some b ->
    a <> b ->
    UniswapAnalytics.computePoolAddress E (Some tokenA) (Some tokenB) (Some fee) =
    UniswapAnalytics.computePoolAddress E (Some tokenB) (Some tokenA) (Some fee).
Proof.
  intros E tokenA tokenB fee a b Ha Hb Hne.
  unfold UniswapAnalytics.computePoolAddress.
  destruct (JS.lt (JS.toLowerCase tokenA) (JS.toLowerCase tokenB)) eqn:Hab.
  - rewrite (lt_asym _ _ Hab). reflexivity.
  - destruct (JS.lt (JS.toLowerCase tokenB) (JS.toLowerCase tokenA)) eqn:Hba;
      [reflexivity|].
    exfalso. apply Hne.
    pose proof (lt_total _ _ Hab Hba) as Heq.
    apply addressValue_toLowerCase in Ha, Hb.
    rewrite Heq in Ha. congruence.
Qed.

(** The USDC and WETH token addresses at fee tier 3000, in both orders. *)
Lemma computePoolAddress_order_independent_witness :
  UniswapAnalytics.computePoolAddress Spec.visiblePrimitives
    (Some Spec.USDC) (Some Spec.WETH) (Some 3000) =
  UniswapAnalytics.computePoolAddress Spec.visiblePrimitives
    (Some Spec.WETH) (Some Spec.USDC) (Some 3000).
Proof.
  eapply (computePoolAddress_order_independent Spec.visiblePrimitives
            Spec.USDC Spec.WETH 3000).
  - vm_compute. reflexivity.
  - vm_compute. reflexivity.
  - discriminate.
Defined.

(** Once a [poolInfo] is at hand, the rest of [calculateLiquidityAPY]
    follows the tick test: out of range the report is
    [{apy: 0, inRange: false}] without volume or fee fields; in range it
    carries the mock volume, the fees and the annualised rate. *)
Lemma liquidityAPYOf_cases (info : UniswapAnalytics.poolInfo)
    (poolAddress : string) (lower upper : Z) :
  (UniswapAnalytics.tick info < lower \/ upper < UniswapAnalytics.tick info ->
   UniswapAnalytics.liquidityAPYOf info poolAddress lower upper =
     Ok {| UniswapAnalytics.apy := 0%float;
           UniswapAnalytics.inRange := false;
           UniswapAnalytics.volume24h := None;
           UniswapAnalytics.fees24h := None |}) /\
  (lower <= UniswapAnalytics.tick info <= upper ->
   exists r,
     UniswapAnalytics.liquidityAPYOf info poolAddress lower upper = Ok r /\
     UniswapAnalytics.inRange r = true /\
     UniswapAnalytics.volume24h r = Some 100000%float /\
     UniswapAnalytics.fees24h r =
       Some (100000 * (UniswapAnalytics.toNumberOrNaN (UniswapAnalytics.fee info) / 1000000))%float).
Proof.
  unfold UniswapAnalytics.liquidityAPYOf. split.
  - intros Hout.
    replace ((lower <=? UniswapAnalytics.tick info) &&
             (UniswapAnalytics.tick info <=? upper)) with false; [reflexivity|].
    symmetry. apply andb_false_iff.
    destruct Hout; [left; apply Z.leb_gt | right; apply Z.leb_gt]; lia.
  - intros [Hlo Hhi].
    replace ((lower <=? UniswapAnalytics.tick info) &&
             (UniswapAnalytics.tick info <=? upper)) with true.
    + cbn. eexists. split; [reflexivity|]. cbn. auto.
    + symmetry. apply andb_true_intro. split; apply Z.leb_le; lia.
Qed.

(** C4, on the source as written.  [calculateLiquidityAPY] never reaches
    its tick test: it calls [getPoolInfo] with the pool address alone, so
    [computePoolAddress] receives [undefined] for its second token and
    throws a [TypeError]; [getPoolInfo] rethrows it.  For every chain state,
    every behaviour of the ethers primitives, every pool address and every
    pair of tick bounds the call rejects, and no report (neither
    [{apy: 0, inRange: false}] nor an in-range one) is ever produced. *)
Theorem calculateLiquidityAPY_always_rejects {U : JS.Unicode} :
  forall (E : Ethers.primitives) (rpc : UniswapAnalytics.chain)
         (poolAddress : string) (positionTickLower positionTickUpper : Z),
    UniswapAnalytics.computePoolAddress E (Some poolAddress) None None =
      Throw (TypeError "Cannot read properties of undefined (reading 'toLowerCase')") /\
    UniswapAnalytics.getPoolInfo E rpc (Some poolAddress) None None =
      Throw (TypeError "Cannot read properties of undefined (reading 'toLowerCase')") /\
    UniswapAnalytics.calculateLiquidityAPY E rpc poolAddress
      positionTickLower positionTickUpper =
      Throw (TypeError "Cannot read properties of undefined (reading 'toLowerCase')") /\
    (forall report : UniswapAnalytics.apyReport,
       UniswapAnalytics.calculateLiquidityAPY E rpc poolAddress
         positionTickLower positionTickUpper <> Ok report).
Proof.
  intros E rpc poolAddress lower upper.
  assert (Haddr : UniswapAnalytics.computePoolAddress E (Some poolAddress) None None =
                  Throw (TypeError "Cannot read properties of undefined (reading 'toLowerCase')"))
    by reflexivity.
  assert (Hinfo : UniswapAnalytics.getPoolInfo E rpc (Some poolAddress) None None =
                  Throw (TypeError "Cannot read properties of undefined (reading 'toLowerCase')"))
    by (unfold UniswapAnalytics.getPoolInfo; rewrite Haddr; reflexivity).
  assert (Hapy : UniswapAnalytics.calculateLiquidityAPY E rpc poolAddress lower upper =
                 Throw (TypeError "Cannot read properties of undefined (reading 'toLowerCase')"))
    by (unfold UniswapAnalytics.calculateLiquidityAPY; rewrite Hinfo; reflexivity).
  split; [exact Haddr|]. split; [exact Hinfo|]. split; [exact Hapy|].
  intros report. rewrite Hapy. discriminate.
Qed.

(* ===================================================================== *)
(** * Further properties of the code                                    *)
(* ===================================================================== *)

(** ** More on the price oracle *)

Section OracleHistory.

Import PriceOracle PriceOracleOps.

Context {U : JS.Unicode}.

(** What one [getPrice] call can do to the instance: nothing, or store the
    record it fetched under the key of its symbol. *)
Lemma getPrice_after_cases (get : upstream) (t t' : Z) (s : string) (o : oracle) :
  after (getPrice get t t' s o) = o \/
  exists p,
    (fetchPriceFromCoinGecko get s).1 = Ok p /\
    after (getPrice get t t' s o) =
      {| cache := <[cacheKeyOf s := {| PriceOracle.price := p;
                                       PriceOracle.timestamp := t' |}]> (cache o);
         cacheTTL := cacheTTL o |}.
Proof.
  destruct (Spec.live o (cacheKeyOf s) t) eqn:Hlive.
  - left. unfold Spec.live in Hlive. unfold getPrice.
    destruct (cache o !! cacheKeyOf s) as [entry|]; [|discriminate].
    rewrite Hlive. reflexivity.
  - rewrite (getPrice_refresh get t t' s o Hlive).
    destruct (fetchPriceFromCoinGecko get s).1 as [p|e]; [right | left; reflexivity].
    exists p. split; reflexivity.
Qed.

Lemma getBatchPrices_after (get : upstream) (symbols : list string) (o : oracle) :
  after (getBatchPrices get symbols o) = o.
Proof. unfold getBatchPrices. destruct (get _); reflexivity. Qed.

Lemma performAll_snoc (ops : list op) (c : op) (o : oracle) :
  performAll (ops ++ [c]) o = perform (performAll ops o) c.
Proof. unfold performAll. now rewrite fold_left_app. Qed.

End OracleHistory.

(** X1. Whatever sequence of method calls ([getPrice], [getBatchPrices],
    [getHistoricalPrices], [clearCache], [getCacheStats]) a fresh instance
    has gone through: its time to live is still 60000 ms; the cache holds
    at most as many entries as there were [getPrice] calls; and every
    cached entry was put there by one of those [getPrice] calls: its key is
    the key of that call's symbol, its time stamp is the call's second
    clock reading, and its record is what the upstream fetch of that call
    returned. *)
Theorem oracle_cache_provenance {U : JS.Unicode} :
  forall ops : list PriceOracleOps.op,
    PriceOracle.cacheTTL (PriceOracleOps.performAll ops PriceOracle.new) = 60000 /\
    (size (PriceOracle.cache (PriceOracleOps.performAll ops PriceOracle.new))
       <= length (filter PriceOracleOps.isGetPrice ops))%nat /\
    (forall (k : string) (e : PriceOracle.cacheEntry),
       PriceOracle.cache (PriceOracleOps.performAll ops PriceOracle.new) !! k = Some e ->
       exists get t s,
         PriceOracleOps.DoGetPrice get t (PriceOracle.timestamp e) s ∈ ops /\
         k = PriceOracle.cacheKeyOf s /\
         (PriceOracle.fetchPriceFromCoinGecko get s).1 = Ok (PriceOracle.price e)).
Proof.
  induction ops as [|c ops IH] using rev_ind.
  - split; [reflexivity|]. split; [cbn; rewrite map_size_empty; lia|].
    intros k e Hk. cbn in Hk. rewrite lookup_empty in Hk. discriminate.
  - rewrite performAll_snoc, filter_app, length_app.
    set (o := PriceOracleOps.performAll ops PriceOracle.new) in *.
    destruct IH as (Httl & Hsize & Hprov).
    assert (Hkeep : forall k e,
              PriceOracle.cache o !! k = Some e ->
              exists get t s,
                PriceOracleOps.DoGetPrice get t (PriceOracle.timestamp e) s ∈ ops ++ [c] /\
                k = PriceOracle.cacheKeyOf s /\
                (PriceOracle.fetchPriceFromCoinGecko get s).1 = Ok (PriceOracle.price e)).
    { intros k e Hk. destruct (Hprov k e Hk) as (get & t & s & Hin & Hrest).
      exists get, t, s. split; [apply elem_of_app; now left | exact Hrest]. }
    destruct c as [get t t' s | get symbols | get s days | | ];
      cbn [PriceOracleOps.perform];
      [ change (length (filter PriceOracleOps.isGetPrice [PriceOracleOps.DoGetPrice get t t' s])) with 1%nat
      | change (length (filter PriceOracleOps.isGetPrice [PriceOracleOps.DoGetBatchPrices get symbols])) with 0%nat
      | change (length (filter PriceOracleOps.isGetPrice [PriceOracleOps.DoGetHistoricalPrices get s days])) with 0%nat
      | change (length (filter PriceOracleOps.isGetPrice [PriceOracleOps.DoClearCache])) with 0%nat
      | change (length (filter PriceOracleOps.isGetPrice [PriceOracleOps.DoGetCacheStats])) with 0%nat ].
    + destruct (getPrice_after_cases get t t' s o) as [-> | (p & Hp & ->)].
      * split; [exact Httl|]. split; [lia | exact Hkeep].
      * cbn [PriceOracle.cache PriceOracle.cacheTTL].
        split; [exact Httl|]. split.
        -- pose proof (map_size_insert (PriceOracle.cacheKeyOf s)
                         {| PriceOracle.price := p; PriceOracle.timestamp := t' |}
                         (PriceOracle.cache o)) as Hins.
           rewrite Hins. cbn.
           destruct (PriceOracle.cache o !! PriceOracle.cacheKeyOf s); unfold id; lia.
        -- intros k e. rewrite lookup_insert.
           destruct (decide (PriceOracle.cacheKeyOf s = k)) as [<-|Hne].
           ++ intros [= <-]. exists get, t, s. cbn.
              split; [apply elem_of_app; right; now left | auto].
           ++ apply Hkeep.
    + rewrite getBatchPrices_after.
      split; [exact Httl|]. split; [cbn; lia | exact Hkeep].
    + cbn. split; [exact Httl|]. split; [lia | exact Hkeep].
    + cbn. split; [exact Httl|]. split; [rewrite map_size_empty; lia|].
      intros k e Hk. rewrite lookup_empty in Hk. discriminate.
    + split; [exact Httl|]. split; [cbn; lia | exact Hkeep].
Qed.

(** X2. One [getPrice] call touches nothing but the entry of its own key:
    the time to live and every other entry are as before, no entry is ever
    removed (an expired record stays until it is overwritten), and the
    cache grows by at most one entry. *)
Theorem getPrice_frame {U : JS.Unicode} :
  forall (get : PriceOracle.upstream) (t t' : Z) (s : string)
         (o : PriceOracle.oracle),
    let o' := PriceOracle.after (PriceOracle.getPrice get t t' s o) in
    PriceOracle.cacheTTL o' = PriceOracle.cacheTTL o /\
    (forall k, k <> PriceOracle.cacheKeyOf s ->
               PriceOracle.cache o' !! k = PriceOracle.cache o !! k) /\
    (forall k, is_Some (PriceOracle.cache o !! k) ->
               is_Some (PriceOracle.cache o' !! k)) /\
    (size (PriceOracle.cache o) <= size (PriceOracle.cache o')
       <= S (size (PriceOracle.cache o)))%nat.
Proof.
  intros get t t' s o o'. subst o'.
  destruct (getPrice_after_cases get t t' s o) as [-> | (p & _ & ->)].
  - repeat split; auto.
  - cbn [PriceOracle.cache PriceOracle.cacheTTL].
    split; [reflexivity|]. split; [|split].
    + intros k Hk. now rewrite lookup_insert_ne.
    + intros k Hk. rewrite lookup_insert. case_decide; [eauto | exact Hk].
    + rewrite map_size_insert.
      destruct (PriceOracle.cache o !! PriceOracle.cacheKeyOf s); unfold id; lia.
Qed.

Section CacheKeys.

Import PriceOracle.

Context {U : JS.Unicode}.

Lemma toLowerChar_idempotent (c : ascii) :
  JS.toLowerChar (JS.toLowerChar c) = JS.toLowerChar c.
Proof. destruct c as [[] [] [] [] [] [] [] []]; reflexivity. Qed.

Lemma asciiLower_idempotent (s : string) :
  JS.asciiLower (JS.asciiLower s) = JS.asciiLower s.
Proof.
  unfold JS.asciiLower. induction s as [|c s IH]; cbn; [reflexivity|].
  now rewrite toLowerChar_idempotent, IH.
Qed.

(** Two symbols share a cache key exactly when they have the same
    lower-casing. *)
Lemma cacheKeyOf_inj (s1 s2 : string) :
  cacheKeyOf s1 = cacheKeyOf s2 <-> JS.toLowerCase s1 = JS.toLowerCase s2.
Proof.
  unfold cacheKeyOf. split; [|now intros ->].
  intros H. cbv [String.append] in H. now injection H.
Qed.

(** The identifiers in the table are stable: each is lower-case, and none
    is re-mapped when it is used as a symbol. *)
Lemma mapping_values_stable (k id : string) :
  mapping !! k = Some id ->
  JS.toLowerCase id = id /\ getCoinGeckoId id = id.
Proof.
  unfold mapping. intros Hk. apply elem_of_list_to_map_2 in Hk.
  unfold mapping_entries in Hk.
  repeat (apply elem_of_cons in Hk as [[= -> ->] | Hk];
          [split; vm_compute; reflexivity|]).
  inversion Hk.
Qed.

End CacheKeys.

Section Resolution.

Import PriceOracle.

Context {U : JS.Unicode}.

(** Case mapping keeps an ASCII string ASCII. *)
Lemma isAscii_toLowerCase (s : string) :
  JS.isAscii s = true -> JS.isAscii (JS.toLowerCase s) = true.
Proof.
  intros Hs. now rewrite (toLowerCase_ascii s Hs), isAscii_asciiLower.
Qed.

Lemma toLowerCase_idempotent (s : string) :
  JS.isAscii s = true -> JS.toLowerCase (JS.toLowerCase s) = JS.toLowerCase s.
Proof.
  intros Hs. rewrite (toLowerCase_ascii _ (isAscii_toLowerCase s Hs)).
  rewrite (toLowerCase_ascii s Hs). apply asciiLower_idempotent.
Qed.

(** Resolving the identifier of an ASCII symbol again gives the identifier
    itself. *)
Lemma getCoinGeckoId_again (s : string) :
  JS.isAscii s = true ->
  getCoinGeckoId (getCoinGeckoId s) = getCoinGeckoId s.
Proof.
  intros Hs.
  destruct (mapping !! JS.toUpperCase s) as [id|] eqn:Hid.
  - assert (Hres : getCoinGeckoId s = id)
      by (unfold getCoinGeckoId; now rewrite Hid).
    rewrite Hres. exact (proj2 (mapping_values_stable _ _ Hid)).
  - assert (Hres : getCoinGeckoId s = JS.asciiLower s)
      by (unfold getCoinGeckoId; now rewrite Hid, (toLowerCase_ascii s Hs)).
    rewrite Hres. unfold getCoinGeckoId.
    assert (Hlow : JS.isAscii (JS.asciiLower s) = true)
      by now rewrite isAscii_asciiLower.
    rewrite (toUpperCase_ascii _ Hlow), (toLowerCase_ascii _ Hlow).
    rewrite asciiUpper_asciiLower, <- (toUpperCase_ascii s Hs), Hid.
    apply asciiLower_idempotent.
Qed.

(** The identifier of an ASCII symbol is an ASCII string. *)
Lemma isAscii_getCoinGeckoId (s : string) :
  JS.isAscii s = true -> JS.isAscii (getCoinGeckoId s) = true.
Proof.
  intros Hs. unfold getCoinGeckoId.
  destruct (mapping !! JS.toUpperCase s) as [id|] eqn:Hid;
    [|now apply isAscii_toLowerCase].
  unfold mapping in Hid. apply elem_of_list_to_map_2 in Hid.
  unfold mapping_entries in Hid.
  repeat (apply elem_of_cons in Hid as [[= _ ->] | Hid]; [reflexivity|]).
  inversion Hid.
Qed.

End Resolution.

(** X3. On ASCII symbols, symbol resolution is idempotent and lands on
    lower-case ASCII identifiers: the identifier of a symbol is unchanged
    by lower-casing, and resolving an identifier again gives the identifier
    itself (so [getPrice("ethereum")] and [getPrice("ETH")] ask the
    upstream for the same coin). *)
Theorem getCoinGeckoId_idempotent {U : JS.Unicode} :
  forall s : string,
    JS.isAscii s = true ->
    JS.isAscii (PriceOracle.getCoinGeckoId s) = true /\
    JS.toLowerCase (PriceOracle.getCoinGeckoId s) = PriceOracle.getCoinGeckoId s /\
    PriceOracle.getCoinGeckoId (PriceOracle.getCoinGeckoId s) = PriceOracle.getCoinGeckoId s.
Proof.
  intros s Hs.
  split; [now apply isAscii_getCoinGeckoId|].
  split; [|now apply getCoinGeckoId_again].
  unfold PriceOracle.getCoinGeckoId.
  destruct (PriceOracle.mapping !! JS.toUpperCase s) as [id|] eqn:Hid.
  - exact (proj1 (mapping_values_stable _ _ Hid)).
  - now apply toLowerCase_idempotent.
Qed.

(** [ETH] resolves to [ethereum], and [ethereum] to itself. *)
Lemma getCoinGeckoId_idempotent_witness :
  PriceOracle.getCoinGeckoId "ETH" = "ethereum" /\
  PriceOracle.getCoinGeckoId (PriceOracle.getCoinGeckoId "ETH") =
    PriceOracle.getCoinGeckoId "ETH".
Proof.
  split; [reflexivity|].
  exact (proj2 (proj2 (getCoinGeckoId_idempotent "ETH" eq_refl))).
Defined.

(** X4. The cache is keyed by the symbol as typed, not by the coin.  After
    a call for [s1], a call for a symbol [s2] that differs from [s1] by
    more than letter case, and that had no entry before, asks the upstream
    again (exactly one request), even when both symbols resolve to the same
    identifier and the record for [s1] is still fresh. *)
Theorem getPrice_aliases_not_shared {U : JS.Unicode} :
  forall (get1 get2 : PriceOracle.upstream) (o : PriceOracle.oracle)
         (s1 s2 : string) (t1 t1' t2 t2' : Z),
    JS.toLowerCase s1 <> JS.toLowerCase s2 ->
    PriceOracle.cache o !! PriceOracle.cacheKeyOf s2 = None ->
    PriceOracle.sent
      (PriceOracle.getPrice get2 t2 t2' s2
         (PriceOracle.after (PriceOracle.getPrice get1 t1 t1' s1 o))) =
    [PriceOracle.singleRequest (PriceOracle.getCoinGeckoId s2)].
Proof.
  intros get1 get2 o s1 s2 t1 t1' t2 t2' Hcase Hnone.
  assert (Hkey : PriceOracle.cacheKeyOf s2 <> PriceOracle.cacheKeyOf s1)
    by (intros H; apply cacheKeyOf_inj in H; congruence).
  rewrite getPrice_refresh.
  - destruct (PriceOracle.fetchPriceFromCoinGecko get2 s2).1; reflexivity.
  - unfold Spec.live.
    destruct (getPrice_after_cases get1 t1 t1' s1 o) as [-> | (p & _ & ->)].
    + now rewrite Hnone.
    + cbn [PriceOracle.cache]. rewrite lookup_insert_ne by congruence.
      now rewrite Hnone.
Qed.

(** [getPrice("ETH")] then, one millisecond later, [getPrice("ethereum")]
    on a fresh instance: the same request goes out a second time. *)
Lemma getPrice_aliases_not_shared_witness :
  PriceOracle.sent
    (PriceOracle.getPrice Spec.mockUpstream 1 1 "ethereum"
       (PriceOracle.after
          (PriceOracle.getPrice Spec.mockUpstream 0 0 "ETH" PriceOracle.new))) =
  [PriceOracle.singleRequest (PriceOracle.getCoinGeckoId "ETH")].
Proof.
  exact (getPrice_aliases_not_shared Spec.mockUpstream Spec.mockUpstream
           PriceOracle.new "ETH" "ethereum" 0 0 1 1
           ltac:(discriminate) eq_refl).
Defined.

(** X5. [getBatchPrices] fails only with the upstream: it always issues its
    one request; it rejects exactly when the HTTP call rejects, with the
    same error; and when the call resolves, the keys of the object it
    returns are exactly the requested symbols other than [__proto__], a
    symbol whose identifier the payload lacks (and no object inherits)
    being mapped to [undefined] instead of failing the batch. *)
Theorem getBatchPrices_outcome {U : JS.Unicode} :
  forall (get : PriceOracle.upstream) (tokenSymbols : list string)
         (o : PriceOracle.oracle),
    let req := PriceOracle.batchRequest (map PriceOracle.getCoinGeckoId tokenSymbols) in
    let out := PriceOracle.getBatchPrices get tokenSymbols o in
    PriceOracle.sent out = [req] /\
    (forall e, get req = Throw e <-> PriceOracle.value out = Throw e) /\
    (forall data, get req = Ok data ->
       exists prices : PriceOracle.pricesObject,
         PriceOracle.value out = Ok prices /\
         dom (PriceOracle.own prices) = list_to_set tokenSymbols ∖ {["__proto__"]} /\
         (forall s, s ∈ tokenSymbols -> s <> "__proto__" ->
            (PriceOracle.own prices !! s = Some PriceOracle.Undefined <->
             data !! PriceOracle.getCoinGeckoId s = None /\
             JS.inherits (PriceOracle.getCoinGeckoId s) = false))).
Proof.
  intros get tokenSymbols o req out. subst req out.
  unfold PriceOracle.getBatchPrices.
  destruct (get _) as [data|e'] eqn:Hget; cbn.
  - split; [reflexivity|]. split; [split; discriminate|].
    intros data' [= <-]. eexists. split; [reflexivity|].
    pose proof (coinIds_aligned tokenSymbols) as Hids.
    split.
    + apply set_eq. intros s.
      rewrite elem_of_dom, elem_of_difference, elem_of_list_to_set, elem_of_singleton.
      rewrite (assignPrices_own _ _ _ _ _ _ Hids).
      destruct (decide (s ∈ tokenSymbols /\ s <> "__proto__")) as [Hin|Hnin].
      * split; [auto | eauto].
      * cbn. rewrite lookup_empty. split; [intros [? ?]; discriminate | contradiction].
    + intros s Hs Hne. rewrite (assignPrices_own _ _ _ _ _ _ Hids).
      rewrite decide_True by (split; assumption).
      unfold PriceOracle.readProperty.
      destruct (data !! PriceOracle.getCoinGeckoId s) as [d|];
        [split; [discriminate | intros [? _]; discriminate]|].
      destruct (JS.inherits (PriceOracle.getCoinGeckoId s));
        [split; [discriminate | intros [_ ?]; discriminate]|].
      split; [auto | reflexivity].
  - split; [reflexivity|]. split; [|discriminate].
    intros e. split; congruence.
Qed.

(** X6. [getHistoricalPrices] of the oracle is a pure pass-through: it
    never reads or writes the cache, it issues exactly one request, to the
    [market_chart] address of the resolved identifier and for 7 days when
    [days] is left out, so that a symbol and any spelling of it that
    differs only in the case of ASCII letters give the same outcome, and
    so does the identifier of an ASCII symbol; the series it returns has one
    point per upstream pair, in upstream order; and a payload without a
    [prices] array makes it reject with a [TypeError]. *)
Theorem getHistoricalPrices_passthrough {U : JS.Unicode} :
  forall (get : PriceOracleOps.chartUpstream) (s : string) (days : option Z)
         (o : PriceOracle.oracle),
    let req := PriceOracleOps.chartRequestOf (PriceOracle.getCoinGeckoId s) (default 7 days) in
    let out := PriceOracleOps.getHistoricalPrices get s days o in
    PriceOracleOps.chart_after out = o /\
    PriceOracleOps.chart_sent out = [req] /\
    (forall o', PriceOracleOps.chart_value (PriceOracleOps.getHistoricalPrices get s days o') =
                PriceOracleOps.chart_value out) /\
    (forall s', JS.asciiLower s' = JS.asciiLower s ->
                PriceOracleOps.getHistoricalPrices get s' days o = out) /\
    (JS.isAscii s = true ->
     PriceOracleOps.getHistoricalPrices get (PriceOracle.getCoinGeckoId s) days o = out) /\
    (forall data pairs,
       get req = Ok data -> PriceOracleOps.prices data = Some pairs ->
       exists points,
         PriceOracleOps.chart_value out = Ok points /\
         length points = length pairs /\
         forall i ts pr,
           pairs !! i = Some (ts, pr) ->
           points !! i = Some {| PriceOracleOps.timestamp := ts;
                                 PriceOracleOps.price := pr |}) /\
    (forall data,
       get req = Ok data -> PriceOracleOps.prices data = None ->
       exists msg, PriceOracleOps.chart_value out = Throw (TypeError msg)).
Proof.
  intros get s days o req out. subst req out.
  unfold PriceOracleOps.getHistoricalPrices.
  split; [reflexivity|]. split; [reflexivity|]. split; [reflexivity|].
  split; [|split; [|split]].
  - intros s' Hcase. now rewrite (getCoinGeckoId_case_insensitive s' s Hcase).
  - intros Hs. now rewrite (getCoinGeckoId_again s Hs).
  - intros data pairs Hget Hprices. cbn. rewrite Hget, Hprices.
    eexists. split; [reflexivity|]. split; [apply length_map|].
    intros i ts pr Hi. change (map ?f ?l) with (f <$> l).
    now rewrite list_lookup_fmap, Hi.
  - intros data Hget Hprices. cbn. rewrite Hget, Hprices. eauto.
Qed.

(** ** Contract utilities *)

Section CreationBlock.

Import ContractUtils.

Variable codeAt : Z -> result string.

Lemma midpoint_bounds (low high : Z) :
  low <= high -> low <= (low + high) / 2 <= high.
Proof.
  intros H. pose proof (Z.div_mod (low + high) 2 ltac:(lia)).
  pose proof (Z.mod_pos_bound (low + high) 2 ltac:(lia)). lia.
Qed.

Lemma deployed_not_empty (b : Z) (code : string) :
  codeAt b = Ok code -> String.eqb code "0x" = false -> deployedAt codeAt b.
Proof.
  intros Hc He. exists code. split; [exact Hc|].
  intros ->. discriminate.
Qed.

(** A hit of the loop is a block with code whose predecessor has none. *)
Lemma search_sound (fuel : nat) :
  forall low high b,
    search codeAt fuel low high = Some (Ok (Some b)) ->
    low <= b <= high /\ deployedAt codeAt b /\ emptyAt codeAt (b - 1).
Proof.
  induction fuel as [|fuel IH]; intros low high b; cbn [search]; [discriminate|].
  destruct (low <=? high) eqn:Hle; [|discriminate].
  apply Z.leb_le in Hle. pose proof (midpoint_bounds low high Hle) as Hmid.
  set (mid := (low + high) / 2) in *.
  destruct (codeAt mid) as [code|e] eqn:Hcode; [|discriminate].
  destruct (String.eqb code "0x") eqn:Hempty.
  - intros H. destruct (IH _ _ _ H) as (Hb & Hd & He). split; [lia | auto].
  - destruct (codeAt (mid - 1)) as [prev|e] eqn:Hprev; [|discriminate].
    destruct (String.eqb prev "0x") eqn:Hpe.
    + intros [= <-]. split; [lia|]. split.
      * exact (deployed_not_empty _ _ Hcode Hempty).
      * unfold emptyAt. apply String.eqb_eq in Hpe. now subst prev.
    + intros H. destruct (IH _ _ _ H) as (Hb & Hd & He). split; [lia | auto].
Qed.

(** More fuel never changes an outcome. *)
Lemma search_fuel_mono (fuel : nat) :
  forall fuel' low high r,
    (fuel <= fuel')%nat ->
    search codeAt fuel low high = Some r ->
    search codeAt fuel' low high = Some r.
Proof.
  induction fuel as [|fuel IH]; intros fuel' low high r Hf; cbn [search];
    [discriminate|].
  destruct fuel' as [|fuel']; [lia|]. cbn [search].
  destruct (low <=? high); [|auto].
  destruct (codeAt _) as [code|e]; [|auto].
  destruct (String.eqb code "0x"); [apply IH; lia|].
  destruct (codeAt _) as [prev|e]; [|auto].
  destruct (String.eqb prev "0x"); [auto | apply IH; lia].
Qed.

(** The range halves at every iteration: [fuel] iterations are enough for
    a range of fewer than [2^(fuel-1)] blocks. *)
Lemma search_halving (fuel : nat) :
  forall low high,
    high - low + 1 < 2 ^ Z.of_nat fuel ->
    search codeAt (S fuel) low high <> None.
Proof.
  induction fuel as [|fuel IH]; intros low high Hsize.
  - cbn [search]. change (2 ^ Z.of_nat 0) with 1 in Hsize.
    destruct (low <=? high) eqn:Hle; [apply Z.leb_le in Hle; lia | discriminate].
  - rewrite Nat2Z.inj_succ, Z.pow_succ_r in Hsize by lia.
    cbn [search]. fold (search codeAt).
    destruct (low <=? high) eqn:Hle; [|discriminate].
    apply Z.leb_le in Hle. pose proof (midpoint_bounds low high Hle) as Hmid.
    pose proof (Z.div_mod (low + high) 2 ltac:(lia)) as Hdm.
    pose proof (Z.mod_pos_bound (low + high) 2 ltac:(lia)) as Hmb.
    set (mid := (low + high) / 2) in *.
    destruct (codeAt mid) as [code|e]; [|discriminate].
    destruct (String.eqb code "0x"); [apply IH; lia|].
    destruct (codeAt (mid - 1)) as [prev|e]; [|discriminate].
    destruct (String.eqb prev "0x"); [discriminate | apply IH; lia].
Qed.

(** With a deployment boundary [c >= 1] inside the range, the loop finds
    it; only blocks from 0 on are read. *)
Lemma search_complete (c top : Z) :
  1 <= c ->
  (forall b, 0 <= b < c -> emptyAt codeAt b) ->
  (forall b, c <= b <= top -> deployedAt codeAt b) ->
  forall fuel low high,
    0 <= low -> low <= c <= high -> high <= top ->
    (Z.to_nat (high - low + 1) < fuel)%nat ->
    search codeAt fuel low high = Some (Ok (Some c)).
Proof.
  intros Hpos Hbelow Habove.
  induction fuel as [|fuel IH]; intros low high Hlow Hc Htop Hfuel; [lia|].
  cbn [search].
  destruct (low <=? high) eqn:Hle; [|apply Z.leb_gt in Hle; lia].
  apply Z.leb_le in Hle. pose proof (midpoint_bounds low high Hle) as Hmid.
  set (mid := (low + high) / 2) in *.
  destruct (Z_lt_le_dec mid c) as [Hlt|Hge].
  - rewrite (Hbelow mid ltac:(lia)). cbn. apply IH; lia.
  - destruct (Habove mid ltac:(lia)) as (code & -> & Hcode).
    apply String.eqb_neq in Hcode. rewrite Hcode.
    destruct (Z_lt_le_dec (mid - 1) c) as [Hlt'|Hge'].
    + rewrite (Hbelow (mid - 1) ltac:(lia)). cbn. do 3 f_equal. lia.
    + destruct (Habove (mid - 1) ltac:(lia)) as (prev & -> & Hprev).
      apply String.eqb_neq in Hprev. rewrite Hprev. apply IH; lia.
Qed.

(** With code at every block of the range and at the block tag before it,
    the loop only moves [high] down and ends without a hit. *)
Lemma search_everywhere :
  forall fuel low high,
    (forall b, low - 1 <= b <= high -> deployedAt codeAt b) ->
    (Z.to_nat (high - low + 1) < fuel)%nat ->
    search codeAt fuel low high = Some (Ok None).
Proof.
  induction fuel as [|fuel IH]; intros low high Hcode Hfuel; [lia|].
  cbn [search].
  destruct (low <=? high) eqn:Hle; [|reflexivity].
  apply Z.leb_le in Hle. pose proof (midpoint_bounds low high Hle) as Hmid.
  set (mid := (low + high) / 2) in *.
  destruct (Hcode mid ltac:(lia)) as (code & -> & Hc).
  apply String.eqb_neq in Hc. rewrite Hc.
  destruct (Hcode (mid - 1) ltac:(lia)) as (prev & -> & Hp).
  apply String.eqb_neq in Hp. rewrite Hp.
  apply IH; [intros b Hb; apply Hcode; lia | lia].
Qed.

(** With no code anywhere in the range, the loop ends without a hit. *)
Lemma search_absent :
  forall fuel low high,
    (forall b, low <= b <= high -> emptyAt codeAt b) ->
    (Z.to_nat (high - low + 1) < fuel)%nat ->
    search codeAt fuel low high = Some (Ok None).
Proof.
  induction fuel as [|fuel IH]; intros low high Hempty Hfuel; [lia|].
  cbn [search].
  destruct (low <=? high) eqn:Hle; [|reflexivity].
  apply Z.leb_le in Hle. pose proof (midpoint_bounds low high Hle) as Hmid.
  set (mid := (low + high) / 2) in *.
  rewrite (Hempty mid Hmid). cbn.
  apply IH; [intros b Hb; apply Hempty; lia | lia].
Qed.

End CreationBlock.

(** X7. A block that [getContractCreationBlock] returns is a creation
    boundary inside the chain: it lies between 0 and the current block
    number, the contract has code there, and it has none one block
    earlier. *)
Theorem getContractCreationBlock_sound :
  forall (P : ContractUtils.provider) (address : string) (b : Z),
    ContractUtils.getContractCreationBlock P address = Ok (Some b) ->
    exists high,
      ContractUtils.getBlockNumber P = Ok high /\
      0 <= b <= high /\
      ContractUtils.deployedAt (ContractUtils.getCode P address) b /\
      ContractUtils.emptyAt (ContractUtils.getCode P address) (b - 1).
Proof.
  intros P address b. unfold ContractUtils.getContractCreationBlock.
  destruct (ContractUtils.getBlockNumber P) as [high|e]; cbn [bind]; [|discriminate].
  destruct (ContractUtils.search _ _ 0 high) as [r|] eqn:Hs; [|discriminate].
  intros ->. exists high. split; [reflexivity|].
  exact (search_sound _ _ _ _ _ Hs).
Qed.

Lemma getContractCreationBlock_sound_witness :
  exists high,
    ContractUtils.getBlockNumber (ContractUtils.deployedFrom 42 100) = Ok high /\
    0 <= 42 <= high /\
    ContractUtils.deployedAt
      (ContractUtils.getCode (ContractUtils.deployedFrom 42 100) "0xC02aaA39b223FE8D0A0e5C4F27eAD9083C756Cc2") 42 /\
    ContractUtils.emptyAt
      (ContractUtils.getCode (ContractUtils.deployedFrom 42 100) "0xC02aaA39b223FE8D0A0e5C4F27eAD9083C756Cc2") (42 - 1).
Proof.
  apply (getContractCreationBlock_sound (ContractUtils.deployedFrom 42 100)
           "0xC02aaA39b223FE8D0A0e5C4F27eAD9083C756Cc2" 42).
  vm_compute. reflexivity.
Defined.

(** X8. If the contract has no code at the blocks [0 .. c - 1] and has
    code from [c] up to the current block, with [1 <= c], then
    [getContractCreationBlock] returns exactly [c], whatever the provider
    answers for block tags below 0.  A contract that has code at every
    block from 0 on is not found when the provider reports code under the
    tag [-1] as well (as a provider does that reads a negative tag back
    from the head): the method returns [null]. *)
Theorem getContractCreationBlock_finds_boundary :
  forall (P : ContractUtils.provider) (address : string) (high : Z),
    ContractUtils.getBlockNumber P = Ok high ->
    (forall c,
       1 <= c <= high ->
       (forall b, 0 <= b < c ->
                  ContractUtils.emptyAt (ContractUtils.getCode P address) b) ->
       (forall b, c <= b <= high ->
                  ContractUtils.deployedAt (ContractUtils.getCode P address) b) ->
       ContractUtils.getContractCreationBlock P address = Ok (Some c)) /\
    ((forall b, -1 <= b <= high ->
                ContractUtils.deployedAt (ContractUtils.getCode P address) b) ->
     ContractUtils.getContractCreationBlock P address = Ok None).
Proof.
  intros P address high Hhigh.
  unfold ContractUtils.getContractCreationBlock. rewrite Hhigh. cbn [bind].
  split.
  - intros c Hc Hbelow Habove.
    rewrite (search_complete _ c high ltac:(lia) Hbelow Habove);
      [reflexivity | lia | lia | lia |].
    unfold ContractUtils.iterations. lia.
  - intros Hcode.
    rewrite (search_everywhere (ContractUtils.getCode P address)
               (ContractUtils.iterations high) 0 high); [reflexivity | |].
    + intros b Hb. apply Hcode. lia.
    + unfold ContractUtils.iterations. lia.
Qed.

(** A contract created at block 42 of a chain whose head is block 100 is
    found at 42; one present from block 0 on, with the tag [-1] answered
    from the chain, is reported as [null]. *)
Lemma getContractCreationBlock_finds_boundary_witness :
  ContractUtils.getContractCreationBlock (ContractUtils.deployedFrom 42 100)
    "0xC02aaA39b223FE8D0A0e5C4F27eAD9083C756Cc2" = Ok (Some 42) /\
  ContractUtils.getContractCreationBlock (ContractUtils.deployedFrom (-1) 100)
    "0xC02aaA39b223FE8D0A0e5C4F27eAD9083C756Cc2" = Ok None.
Proof.
  split.
  - apply (proj1 (getContractCreationBlock_finds_boundary
                    (ContractUtils.deployedFrom 42 100) _ 100 eq_refl) 42).
    + lia.
    + intros b Hb. unfold ContractUtils.emptyAt. cbn.
      destruct (b <? 42) eqn:E; [reflexivity | apply Z.ltb_ge in E; lia].
    + intros b Hb. exists "0x6080". cbn. split; [|discriminate].
      destruct (b <? 42) eqn:E; [apply Z.ltb_lt in E; lia | reflexivity].
  - apply (proj2 (getContractCreationBlock_finds_boundary
                    (ContractUtils.deployedFrom (-1) 100) _ 100 eq_refl)).
    intros b Hb. exists "0x6080". cbn. split; [|discriminate].
    destruct (b <? -1) eqn:E; [apply Z.ltb_lt in E; lia | reflexivity].
Defined.

(** X9. If the contract has no code at any block from 0 to the current
    block, [getContractCreationBlock] returns [null]; and a failure of
    [getBlockNumber] is passed on. *)
Theorem getContractCreationBlock_absent :
  forall (P : ContractUtils.provider) (address : string),
    (forall high,
       ContractUtils.getBlockNumber P = Ok high ->
       (forall b, 0 <= b <= high ->
                  ContractUtils.emptyAt (ContractUtils.getCode P address) b) ->
       ContractUtils.getContractCreationBlock P address = Ok None) /\
    (forall e,
       ContractUtils.getBlockNumber P = Throw e ->
       ContractUtils.getContractCreationBlock P address = Throw e).
Proof.
  intros P address. unfold ContractUtils.getContractCreationBlock. split.
  - intros high -> Hempty. cbn [bind].
    rewrite (search_absent _ _ 0 high Hempty); [reflexivity|].
    unfold ContractUtils.iterations. lia.
  - intros e ->. reflexivity.
Qed.

Lemma getContractCreationBlock_absent_witness :
  ContractUtils.getContractCreationBlock (ContractUtils.deployedFrom 500 100)
    "0xC02aaA39b223FE8D0A0e5C4F27eAD9083C756Cc2" = Ok None.
Proof.
  apply (proj1 (getContractCreationBlock_absent (ContractUtils.deployedFrom 500 100) _) 100).
  - reflexivity.
  - intros b Hb. unfold ContractUtils.emptyAt. cbn.
    destruct (b <? 500) eqn:E; [reflexivity | apply Z.ltb_ge in E; lia].
Defined.

(** X10. The loop of [getContractCreationBlock] is a bisection that always
    ends: on a chain of current block [high] it is over within
    [log2 (high + 1) + 1] iterations (at most two [getCode] calls each),
    whatever the provider answers, and what the method returns is the
    outcome of those iterations. *)
Theorem getContractCreationBlock_logarithmic :
  forall (P : ContractUtils.provider) (address : string) (high : Z),
    ContractUtils.getBlockNumber P = Ok high ->
    exists outcome,
      ContractUtils.search (ContractUtils.getCode P address)
        (S (S (Z.to_nat (Z.log2 (high + 1))))) 0 high = Some outcome /\
      ContractUtils.getContractCreationBlock P address = outcome.
Proof.
  intros P address high Hhigh.
  unfold ContractUtils.getContractCreationBlock. rewrite Hhigh. cbn [bind].
  destruct (Z_lt_le_dec high 0) as [Hneg|Hpos].
  - exists (Ok None). unfold ContractUtils.iterations. cbn [ContractUtils.search].
    replace (0 <=? high) with false by (symmetry; apply Z.leb_gt; lia).
    split; reflexivity.
  - pose proof (Z.log2_spec (high + 1) ltac:(lia)) as [_ Hlog].
    pose proof (Z.log2_nonneg (high + 1)) as Hnn.
    pose proof (Z.log2_lt_lin (high + 1) ltac:(lia)) as Hlin.
    destruct (ContractUtils.search (ContractUtils.getCode P address)
                (S (S (Z.to_nat (Z.log2 (high + 1))))) 0 high) as [outcome|] eqn:Hs.
    + exists outcome. split; [reflexivity|].
      assert (Hfuel : (S (S (Z.to_nat (Z.log2 (high + 1)))) <=
                       ContractUtils.iterations high)%nat)
        by (unfold ContractUtils.iterations; lia).
      rewrite (search_fuel_mono _ _ _ _ _ _ Hfuel Hs).
      reflexivity.
    + exfalso. revert Hs. apply search_halving.
      rewrite Nat2Z.inj_succ, Z2Nat.id by lia. lia.
Qed.

Lemma getContractCreationBlock_logarithmic_witness :
  exists outcome,
    ContractUtils.search
      (ContractUtils.getCode (ContractUtils.deployedFrom 42 100)
         "0xC02aaA39b223FE8D0A0e5C4F27eAD9083C756Cc2")
      (S (S (Z.to_nat (Z.log2 (100 + 1))))) 0 100 = Some outcome /\
    ContractUtils.getContractCreationBlock (ContractUtils.deployedFrom 42 100)
      "0xC02aaA39b223FE8D0A0e5C4F27eAD9083C756Cc2" = outcome.
Proof.
  apply (getContractCreationBlock_logarithmic (ContractUtils.deployedFrom 42 100) _ 100).
  reflexivity.
Defined.

Section Amounts.

(** The decimal numeral of a non-negative integer denotes that integer. *)
Lemma toString_numeral (a : Z) :
  0 <= a -> Numeral.value (Ethers.toString a) = Some (Z.to_N a, O).
Proof.
  intros Ha. unfold Numeral.value.
  pose proof (toString_value a 0) as Hv.
  rewrite (splitAtPoint_digits _ _ _ Hv).
  destruct (Ethers.toString a) as [|c s] eqn:Hs;
    [exfalso; now apply (toString_nonempty a)|].
  rewrite Hv. do 2 f_equal; lia.
Qed.

End Amounts.

(** X11. The three renderings of a transaction cost agree.  When
    [BigNumber.from] accepts [gasUsed] and [gasPrice] as the non-negative
    integers [used] and [price], [calculateTransactionCost] returns
    numerals [wei], [gwei] and [eth] that denote the product
    [used * price] at the scales 1, [10^9] and [10^18], the last two with
    at most 9 and 18 fraction digits.  A JavaScript number at or beyond
    [2^53 - 1] in magnitude, in either position, makes the call throw a
    numeric fault ([overflow]) instead.  [getGasPrice] renders the
    provider's gas price in the same way. *)
Theorem calculateTransactionCost_consistent :
  forall (gasUsed gasPrice : Ethers.bigNumberish) (used price : Z),
    Ethers.from gasUsed = Ok used ->
    Ethers.from gasPrice = Ok price ->
    (0 <= used -> 0 <= price ->
     exists (r : ContractUtils.amounts) (ng ne : N) (kg ke : nat),
       ContractUtils.calculateTransactionCost gasUsed gasPrice = Ok r /\
       Numeral.value (ContractUtils.wei r) = Some (Z.to_N (used * price), O) /\
       Numeral.value (ContractUtils.gwei r) = Some (ng, kg) /\
       (kg <= 9)%nat /\
       (ng * 10 ^ N.of_nat (9 - kg) = Z.to_N (used * price))%N /\
       Numeral.value (ContractUtils.eth r) = Some (ne, ke) /\
       (ke <= 18)%nat /\
       (ne * 10 ^ N.of_nat (18 - ke) = Z.to_N (used * price))%N) /\
    (forall n : Z,
       2 ^ 53 - 1 <= Z.abs n ->
       ContractUtils.calculateTransactionCost (Ethers.Number n) gasPrice =
         Throw (NumericFault "overflow") /\
       ContractUtils.calculateTransactionCost gasUsed (Ethers.Number n) =
         Throw (NumericFault "overflow")) /\
    (forall n : Z,
       Z.abs n < 2 ^ 53 - 1 ->
       Ethers.from (Ethers.Number n) = Ok n /\ Ethers.from (Ethers.Exact n) = Ok n) /\
    (forall P : ContractUtils.provider,
       ContractUtils.provider_getGasPrice P = Ok price ->
       ContractUtils.getGasPrice P =
       ContractUtils.calculateTransactionCost (Ethers.Number 1) (Ethers.Exact price)).
Proof.
  intros gasUsed gasPrice used price Hused Hprice.
  assert (Hover : forall n, 2 ^ 53 - 1 <= Z.abs n ->
            Ethers.from (Ethers.Number n) = Throw (NumericFault "overflow")).
  { intros n Hn. unfold Ethers.from, Ethers.MAX_SAFE.
    destruct (2 ^ 53 - 1 <=? n) eqn:Hhi; [reflexivity|].
    destruct (n <=? - (2 ^ 53 - 1)) eqn:Hlo; [reflexivity|].
    apply Z.leb_gt in Hhi, Hlo. lia. }
  split; [|split; [|split]].
  - intros Hu Hp.
    assert (Hcost : 0 <= used * price) by nia.
    unfold ContractUtils.calculateTransactionCost. rewrite Hused, Hprice. cbn [bind].
    unfold ContractUtils.renderAmounts, Ethers.mul.
    destruct (formatUnits_value (used * price) 9 Hcost ltac:(lia))
      as (pg & ng & kg & Hpg & Hvg & Hkg & Hng).
    destruct (formatUnits_value (used * price) 18 Hcost ltac:(lia))
      as (pe & ne & ke & Hpe & Hve & Hke & Hne).
    rewrite Hpg, Hpe. cbn [bind].
    eexists _, ng, ne, kg, ke. split; [reflexivity|].
    cbn [ContractUtils.wei ContractUtils.gwei ContractUtils.eth].
    split.
    { unfold UniswapHistory.toStringSigned.
      replace (used * price <? 0) with false by (symmetry; apply Z.ltb_ge; lia).
      now apply toString_numeral. }
    split; [exact Hvg|]. split; [exact Hkg|]. split; [exact Hng|].
    split; [exact Hve|]. split; [exact Hke | exact Hne].
  - intros n Hn. unfold ContractUtils.calculateTransactionCost.
    rewrite (Hover n Hn), Hused. split; reflexivity.
  - intros n Hn. split; [|reflexivity].
    unfold Ethers.from, Ethers.MAX_SAFE.
    destruct (2 ^ 53 - 1 <=? n) eqn:Hhi; [apply Z.leb_le in Hhi; lia|].
    destruct (n <=? - (2 ^ 53 - 1)) eqn:Hlo; [apply Z.leb_le in Hlo; lia|].
    reflexivity.
  - intros P HP. unfold ContractUtils.getGasPrice, ContractUtils.calculateTransactionCost,
      Ethers.mul.
    rewrite HP.
    change (Ethers.from (Ethers.Number 1)) with (Ok (A := Z) 1).
    cbn [bind Ethers.from]. now rewrite Z.mul_1_l.
Qed.

(** 21000 units of gas, given as a JavaScript number, at 30 gwei, given
    as a decimal string. *)
Lemma calculateTransactionCost_consistent_witness :
  exists (r : ContractUtils.amounts) (ng ne : N) (kg ke : nat),
    ContractUtils.calculateTransactionCost
      (Ethers.Number 21000) (Ethers.Exact 30000000000) = Ok r /\
    Numeral.value (ContractUtils.wei r) = Some (Z.to_N (21000 * 30000000000), O) /\
    Numeral.value (ContractUtils.gwei r) = Some (ng, kg) /\
    (kg <= 9)%nat /\
    (ng * 10 ^ N.of_nat (9 - kg) = Z.to_N (21000 * 30000000000))%N /\
    Numeral.value (ContractUtils.eth r) = Some (ne, ke) /\
    (ke <= 18)%nat /\
    (ne * 10 ^ N.of_nat (18 - ke) = Z.to_N (21000 * 30000000000))%N.
Proof.
  apply (proj1 (calculateTransactionCost_consistent
                  (Ethers.Number 21000) (Ethers.Exact 30000000000)
                  21000 30000000000 eq_refl eq_refl)
           ltac:(lia) ltac:(lia)).
Defined.

Section EventLogs.

Import ContractUtils.

Variable parseLog : log -> result logDescription.

Lemma decode_loop (logs : list log) :
  forall acc : list decodedLog,
    fold_left
      (fun decodedLogs l =>
         match decodeOne parseLog l with
         | Some entry => decodedLogs ++ [entry]
         | None => decodedLogs
         end) logs acc =
    acc ++ omap (decodeOne parseLog) logs.
Proof.
  induction logs as [|l logs IH]; intros acc; cbn.
  - now rewrite app_nil_r.
  - rewrite IH. destruct (decodeOne parseLog l); [|reflexivity].
    now rewrite <- app_assoc.
Qed.

End EventLogs.

(** X12. With a well-formed ABI, [decodeEventLogs] never throws: it returns
    the entries of the logs that the interface can parse, in the order of
    the logs, silently dropping the others.  Hence decoding a concatenation
    gives the concatenation of the decodings, the result is never longer
    than the input, and it has the same length exactly when every log
    parses.  With a malformed ABI the constructor's error is thrown. *)
Theorem decodeEventLogs_keeps_parsed :
  forall (parseLog : ContractUtils.log -> result ContractUtils.logDescription)
         (logs1 logs2 : list ContractUtils.log),
    exists d1 d2,
      ContractUtils.decodeEventLogs (Ok parseLog) logs1 = Ok d1 /\
      ContractUtils.decodeEventLogs (Ok parseLog) logs2 = Ok d2 /\
      ContractUtils.decodeEventLogs (Ok parseLog) (logs1 ++ logs2) = Ok (d1 ++ d2) /\
      d1 = omap (ContractUtils.decodeOne parseLog) logs1 /\
      (length d1 <= length logs1)%nat /\
      (length d1 = length logs1 <->
       Forall (fun l => exists decoded, parseLog l = Ok decoded) logs1) /\
      (forall e, ContractUtils.decodeEventLogs (Throw e) logs1 = Throw e).
Proof.
  intros parseLog logs1 logs2. unfold ContractUtils.decodeEventLogs. cbn [bind].
  rewrite !decode_loop. cbn [app].
  eexists _, _. split; [reflexivity|]. split; [reflexivity|].
  split; [now rewrite omap_app|]. split; [reflexivity|].
  split; [|split; [|reflexivity]].
  - induction logs1 as [|l logs IH]; cbn; [lia|].
    destruct (ContractUtils.decodeOne parseLog l); cbn; lia.
  - induction logs1 as [|l logs IH]; cbn; [split; [constructor | reflexivity]|].
    assert (Hle : (length (omap (ContractUtils.decodeOne parseLog) logs) <= length logs)%nat).
    { clear. induction logs as [|l' logs IH]; cbn; [lia|].
      destruct (ContractUtils.decodeOne parseLog l'); cbn; lia. }
    unfold ContractUtils.decodeOne at 1.
    destruct (parseLog l) as [decoded|e] eqn:Hl; cbn.
    + split.
      * intros [= Hlen]. constructor; [eauto | now apply IH].
      * intros Hall. inversion Hall; subst. f_equal. now apply IH.
    + split; [lia|].
      intros Hall. inversion Hall as [|? ? [decoded Hd] ?]; subst. congruence.
Qed.

(** ** More on the Uniswap V3 helpers *)

Section PriceDomain.

Import UniswapAnalytics.

(** [adjustedPrice] on any square-root price, negative ones included: the
    square is what is divided. *)
Lemma adjustedPrice_square (s d0 d1 : Z) :
  0 <= d0 -> 0 <= d1 ->
  adjustedPrice s d0 d1 = Ok ((s * s / 2 ^ 96) * 10 ^ d0 / 10 ^ d1) /\
  0 <= (s * s / 2 ^ 96) * 10 ^ d0 / 10 ^ d1.
Proof.
  intros Hd0 Hd1.
  assert (Hp1 : 0 < 10 ^ d1) by (apply Z.pow_pos_nonneg; lia).
  assert (Hp0 : 0 < 10 ^ d0) by (apply Z.pow_pos_nonneg; lia).
  assert (Hq : 0 <= s * s / 2 ^ 96) by (apply Z.div_pos; [nia | reflexivity]).
  split; [|apply Z.div_pos; nia].
  unfold adjustedPrice, Ethers.pow, Ethers.div, Ethers.mul.
  change (96 <? 0) with false. cbn [bind].
  change (2 ^ 96 =? 0) with false. cbn [bind].
  destruct (d0 <? 0) eqn:E0; [apply Z.ltb_lt in E0; lia|]. cbn [bind].
  destruct (d1 <? 0) eqn:E1; [apply Z.ltb_lt in E1; lia|]. cbn [bind].
  destruct (10 ^ d1 =? 0) eqn:Ez; [apply Z.eqb_eq in Ez; lia|].
  rewrite (Z.quot_div_nonneg (s * s) (2 ^ 96)) by (first [nia | reflexivity]).
  rewrite Z.quot_div_nonneg by nia.
  reflexivity.
Qed.




End PriceDomain.







Section PoolInfo.

Import UniswapAnalytics.

Context {U : JS.Unicode}.

(** Swapping two tokens that differ by more than letter case leaves the
    derived address (or the rejection) unchanged, with or without a fee. *)
Lemma computePoolAddress_swap (E : Ethers.primitives) (a b : string)
    (fee : option Z) :
  JS.toLowerCase a <> JS.toLowerCase b ->
  computePoolAddress E (Some a) (Some b) fee =
  computePoolAddress E (Some b) (Some a) fee.
Proof.
  intros Hne. unfold computePoolAddress.
  destruct (JS.lt (JS.toLowerCase a) (JS.toLowerCase b)) eqn:Hab.
  - rewrite (lt_asym _ _ Hab). reflexivity.
  - destruct (JS.lt (JS.toLowerCase b) (JS.toLowerCase a)) eqn:Hba; [reflexivity|].
    exfalso. apply Hne. now apply lt_total.
Qed.

End PoolInfo.

(** X16. [getPoolInfo] does not depend on the order of its two token
    arguments when they differ by more than letter case: both orders read
    the same contract and give the same outcome.  When it resolves, the
    address it reports is the derived pool address, the tokens, price,
    tick and liquidity are what that contract answered, and [fee] is the
    caller's argument handed back. *)
Theorem getPoolInfo_symmetric {U : JS.Unicode} :
  forall (E : Ethers.primitives) (rpc : UniswapAnalytics.chain)
         (tokenA tokenB : string) (fee : option Z),
    JS.toLowerCase tokenA <> JS.toLowerCase tokenB ->
    UniswapAnalytics.getPoolInfo E rpc (Some tokenA) (Some tokenB) fee =
    UniswapAnalytics.getPoolInfo E rpc (Some tokenB) (Some tokenA) fee /\
    (forall info,
       UniswapAnalytics.getPoolInfo E rpc (Some tokenA) (Some tokenB) fee = Ok info ->
       UniswapAnalytics.computePoolAddress E (Some tokenB) (Some tokenA) fee =
         Ok (UniswapAnalytics.address info) /\
       UniswapAnalytics.token0 (rpc (UniswapAnalytics.address info)) =
         Ok (UniswapAnalytics.pi_token0 info) /\
       UniswapAnalytics.token1 (rpc (UniswapAnalytics.address info)) =
         Ok (UniswapAnalytics.pi_token1 info) /\
       UniswapAnalytics.liquidity (rpc (UniswapAnalytics.address info)) =
         Ok (UniswapAnalytics.pi_liquidity info) /\
       (exists s0,
          UniswapAnalytics.slot0 (rpc (UniswapAnalytics.address info)) = Ok s0 /\
          UniswapAnalytics.s_sqrtPriceX96 s0 = UniswapAnalytics.sqrtPriceX96 info /\
          UniswapAnalytics.s_tick s0 = UniswapAnalytics.tick info) /\
       UniswapAnalytics.fee info = fee).
Proof.
  intros E rpc tokenA tokenB fee Hne.
  unfold UniswapAnalytics.getPoolInfo.
  rewrite (computePoolAddress_swap E tokenA tokenB fee Hne).
  split; [reflexivity|].
  intros info.
  destruct (UniswapAnalytics.computePoolAddress E (Some tokenB) (Some tokenA) fee)
    as [addr|e]; cbn [bind]; [|discriminate].
  destruct (UniswapAnalytics.slot0 (rpc addr)) as [s0|e] eqn:H0; cbn [bind]; [|discriminate].
  destruct (UniswapAnalytics.liquidity (rpc addr)) as [liq|e] eqn:Hl; cbn [bind]; [|discriminate].
  destruct (UniswapAnalytics.token0 (rpc addr)) as [t0|e] eqn:Ht0; cbn [bind]; [|discriminate].
  destruct (UniswapAnalytics.token1 (rpc addr)) as [t1|e] eqn:Ht1; cbn [bind]; [|discriminate].
  intros [= <-]. cbn. rewrite H0. repeat split; eauto.
Qed.

Lemma getPoolInfo_symmetric_witness :
  UniswapAnalytics.getPoolInfo Spec.visiblePrimitives UniswapHistory.steadyChain
    (Some Spec.USDC) (Some Spec.WETH) (Some 3000) =
  UniswapAnalytics.getPoolInfo Spec.visiblePrimitives UniswapHistory.steadyChain
    (Some Spec.WETH) (Some Spec.USDC) (Some 3000).
Proof.
  apply (getPoolInfo_symmetric Spec.visiblePrimitives UniswapHistory.steadyChain
           Spec.USDC Spec.WETH (Some 3000)).
  discriminate.
Defined.

Section MapResult.

Import UniswapHistory.

Lemma mapResult_ok {A B : Type} (f : A -> result B) (l : list A) :
  (forall x, exists y, f x = Ok y) ->
  exists ys,
    mapResult f l = Ok ys /\
    length ys = length l /\
    forall i x, l !! i = Some x -> exists y, ys !! i = Some y /\ f x = Ok y.
Proof.
  intros Hf. induction l as [|x l (ys & Hys & Hlen & Hnth)]; cbn [mapResult].
  - exists []. split; [reflexivity|]. split; [reflexivity|]. intros i x Hi. inversion Hi.
  - destruct (Hf x) as [y Hy]. rewrite Hy, Hys. cbn [bind].
    exists (y :: ys). split; [reflexivity|]. split; [cbn; congruence|].
    intros [|i] x' Hi; cbn in Hi |- *.
    + injection Hi as <-. eauto.
    + now apply Hnth.
Qed.

End MapResult.

(** X17. [getHistoricalPrices] of the Uniswap integration ignores its time
    range: both bounds are resolved to ['latest'], so every pair of
    timestamps gives the same outcome.  A failure of the event query is
    passed on; otherwise the call resolves, with one point per [Swap]
    event in the order of the events, each carrying the event's block
    number, its transaction hash and the price that [calculatePrice] gives
    for the event's square-root price at 18 and 18 decimals. *)
Theorem getHistoricalPrices_ignores_range :
  forall (queryFilter : UniswapHistory.eventSource) (poolAddress : string)
         (fromTimestamp toTimestamp : Z),
    (forall from' to',
       UniswapHistory.getHistoricalPrices queryFilter poolAddress from' to' =
       UniswapHistory.getHistoricalPrices queryFilter poolAddress fromTimestamp toTimestamp) /\
    (forall e,
       queryFilter poolAddress UniswapHistory.Latest UniswapHistory.Latest = Throw e ->
       UniswapHistory.getHistoricalPrices queryFilter poolAddress fromTimestamp toTimestamp =
         Throw e) /\
    (forall events,
       queryFilter poolAddress UniswapHistory.Latest UniswapHistory.Latest = Ok events ->
       exists points,
         UniswapHistory.getHistoricalPrices queryFilter poolAddress fromTimestamp toTimestamp =
           Ok points /\
         length points = length events /\
         forall i event,
           events !! i = Some event ->
           exists point,
             points !! i = Some point /\
             UniswapHistory.timestamp point = UniswapHistory.blockNumber event /\
             UniswapHistory.txHash point = UniswapHistory.transactionHash event /\
             UniswapAnalytics.calculatePrice (UniswapHistory.args_sqrtPriceX96 event) 18 18 =
               Ok (UniswapHistory.price point)).
Proof.
  intros queryFilter poolAddress from to.
  unfold UniswapHistory.getHistoricalPrices, UniswapHistory.getBlockFromTimestamp.
  cbn [bind]. split; [reflexivity|]. split.
  - intros e ->. reflexivity.
  - intros events ->. cbn [bind].
    match goal with
    | |- context [UniswapHistory.mapResult ?f events] =>
        destruct (mapResult_ok f events) as (points & Hpts & Hlen & Hnth)
    end.
    + intros event.
      destruct (adjustedPrice_square (UniswapHistory.args_sqrtPriceX96 event) 18 18
                  ltac:(lia) ltac:(lia)) as [Hadj Hnn].
      destruct (formatUnits_value _ 18 Hnn ltac:(lia)) as (p & _ & _ & Hp & _).
      unfold UniswapAnalytics.calculatePrice. rewrite Hadj. cbn [bind].
      rewrite Hp. cbn [bind]. eauto.
    + exists points. split; [exact Hpts|]. split; [exact Hlen|].
      intros i event Hi. destruct (Hnth i event Hi) as (point & Hpoint & Hf).
      exists point. split; [exact Hpoint|].
      destruct (UniswapAnalytics.calculatePrice _ 18 18) as [p|e]; cbn [bind] in Hf;
        [|discriminate].
      injection Hf as <-. cbn. auto.
Qed.

(** ** More on the portfolio engine *)

Section Ignored.

(** A loop that leaves its accumulator alone on the elements outside [c]
    can as well run over the elements inside [c] only. *)
Lemma fold_left_filter {A B : Type} (f : A -> B -> A) (c : B -> bool) (l : list B) :
  (forall a x, c x = false -> f a x = a) ->
  forall acc, fold_left f l acc = fold_left f (filter c l) acc.
Proof.
  intros Hskip. induction l as [|x l IH]; intros acc; [reflexivity|].
  cbn [fold_left]. rewrite filter_cons.
  destruct (decide (c x)) as [Hd|Hd].
  - cbn [fold_left]. apply IH.
  - rewrite Hskip by (destruct (c x); [exfalso; apply Hd; exact I | reflexivity]).
    apply IH.
Qed.

Lemma accumulate_skips (acc : PortfolioAnalytics.sums) (p : PortfolioAnalytics.position) :
  PortfolioYield.atRisk p = false -> PortfolioAnalytics.accumulate acc p = acc.
Proof.
  unfold PortfolioYield.atRisk, PortfolioAnalytics.accumulate.
  intros [H1 H2]%orb_false_elim. now rewrite H1, H2.
Qed.

(** Positions that are not collateral leave the collateral sums at their
    start values. *)
Lemma no_collateral_sums (ps : list PortfolioAnalytics.position) :
  Forall (fun p => PortfolioAnalytics.type p <> "collateral") ps ->
  forall acc,
    PortfolioAnalytics.s_totalCollateral (fold_left PortfolioAnalytics.accumulate ps acc) =
      PortfolioAnalytics.s_totalCollateral acc /\
    PortfolioAnalytics.s_liquidationThreshold (fold_left PortfolioAnalytics.accumulate ps acc) =
      PortfolioAnalytics.s_liquidationThreshold acc.
Proof.
  induction 1 as [|p ps Hp _ IH]; intros acc; [split; reflexivity|].
  cbn [fold_left]. destruct (IH (PortfolioAnalytics.accumulate acc p)) as [-> ->].
  unfold PortfolioAnalytics.accumulate.
  apply String.eqb_neq in Hp. rewrite Hp.
  destruct (String.eqb (PortfolioAnalytics.type p) "debt"); split; reflexivity.
Qed.

End Ignored.

(** X18. Debt without collateral is rated safe.  Whenever none of the
    positions that [getLendingPositions] delivers has type ['collateral']
    (whatever debt they carry) [calculateRiskMetrics] reports a total
    collateral of 0, a health factor of [Infinity] and the liquidation risk
    ['Low']. *)
Theorem calculateRiskMetrics_without_collateral :
  forall (aave : PortfolioAnalytics.fetcher) (address : string),
    (forall ps, aave address = Ok ps ->
                Forall (fun p => PortfolioAnalytics.type p <> "collateral") ps) ->
    exists m : PortfolioAnalytics.riskMetrics,
      PortfolioAnalytics.calculateRiskMetrics aave address = Ok m /\
      PortfolioAnalytics.totalCollateral m = 0%float /\
      PortfolioAnalytics.healthFactor m = infinity /\
      PortfolioAnalytics.liquidationRisk m = "Low".
Proof.
  intros aave address Hno.
  unfold PortfolioAnalytics.calculateRiskMetrics, PortfolioAnalytics.getLendingPositions.
  cbn [bind].
  assert (Hps : Forall (fun p => PortfolioAnalytics.type p <> "collateral")
                  match aave address with
                  | Ok aavePositions => [] ++ aavePositions
                  | Throw _ => []
                  end)
    by (destruct (aave address) as [ps|e]; [apply Hno; reflexivity | constructor]).
  destruct (no_collateral_sums _ Hps
              {| PortfolioAnalytics.s_totalCollateral := 0%float;
                 PortfolioAnalytics.s_totalDebt := 0%float;
                 PortfolioAnalytics.s_liquidationThreshold := 0%float |})
    as [Hcol _].
  cbn [PortfolioAnalytics.s_totalCollateral] in Hcol.
  eexists. split; [reflexivity|].
  cbn [PortfolioAnalytics.totalCollateral PortfolioAnalytics.healthFactor
       PortfolioAnalytics.liquidationRisk].
  unfold PortfolioAnalytics.sumPositions. rewrite Hcol.
  split; [reflexivity|]. split; reflexivity.
Qed.

(** A borrower with 500 of debt and nothing else. *)
Lemma calculateRiskMetrics_without_collateral_witness :
  exists m : PortfolioAnalytics.riskMetrics,
    PortfolioAnalytics.calculateRiskMetrics
      (fun _ => Ok [ {| PortfolioAnalytics.type := "debt";
                        PortfolioAnalytics.value := 500%float;
                        PortfolioAnalytics.liquidationThreshold := 0%float |} ])
      "0x742d35Cc6634C0532925a3b844Bc454e4438f44e" = Ok m /\
    PortfolioAnalytics.totalCollateral m = 0%float /\
    PortfolioAnalytics.healthFactor m = infinity /\
    PortfolioAnalytics.liquidationRisk m = "Low".
Proof.
  apply calculateRiskMetrics_without_collateral.
  intros ps [= <-]. repeat constructor. discriminate.
Defined.

(** X19. [calculateRiskMetrics] looks at collateral and debt only: dropping
    from the fetched positions every one of another type (['supply'], for
    one) changes nothing in its result. *)
Theorem calculateRiskMetrics_ignores_other_types :
  forall (aave : PortfolioAnalytics.fetcher) (address : string),
    PortfolioAnalytics.calculateRiskMetrics aave address =
    PortfolioAnalytics.calculateRiskMetrics
      (fun a => match aave a with
                | Ok ps => Ok (filter PortfolioYield.atRisk ps)
                | Throw e => Throw e
                end) address.
Proof.
  intros aave address.
  unfold PortfolioAnalytics.calculateRiskMetrics, PortfolioAnalytics.getLendingPositions.
  cbn [bind].
  destruct (aave address) as [ps|e]; [|reflexivity].
  cbn [app]. unfold PortfolioAnalytics.sumPositions.
  now rewrite (fold_left_filter _ PortfolioYield.atRisk ps accumulate_skips).
Qed.

(** X20. The yield summary and the total value read a different vocabulary
    of position types than the risk metrics: [calculateYieldSummary]
    counts, of the lending positions, those of type ['supply'] only, and
    [calculateTotalValue] those of type ['supply'] or ['debt'] only;
    positions of any other type (['collateral'] included) can be dropped
    without changing either result. *)
Theorem yield_and_value_ignore_other_types :
  (forall (F : PortfolioYield.fetchers) (address : string),
     PortfolioYield.calculateYieldSummary F address =
     PortfolioYield.calculateYieldSummary
       {| PortfolioYield.getUniswapV3Positions := PortfolioYield.getUniswapV3Positions F;
          PortfolioYield.getUniswapV2Positions := PortfolioYield.getUniswapV2Positions F;
          PortfolioYield.getAavePositions :=
            fun a => match PortfolioYield.getAavePositions F a with
                     | Ok ps => Ok (filter PortfolioYield.earns ps)
                     | Throw e => Throw e
                     end |} address) /\
  (forall data : PortfolioYield.portfolioData,
     PortfolioYield.calculateTotalValue data =
     PortfolioYield.calculateTotalValue
       {| PortfolioYield.tokenBalances := PortfolioYield.tokenBalances data;
          PortfolioYield.lpPositions := PortfolioYield.lpPositions data;
          PortfolioYield.lendingPositions :=
            filter PortfolioYield.valued (PortfolioYield.lendingPositions data) |}).
Proof.
  split.
  - intros F address.
    unfold PortfolioYield.calculateYieldSummary, PortfolioYield.getLendingPositions,
      PortfolioYield.getLiquidityPositions.
    cbn [bind PortfolioYield.getAavePositions PortfolioYield.getUniswapV3Positions
         PortfolioYield.getUniswapV2Positions].
    destruct (PortfolioYield.getAavePositions F address) as [ps|e]; [|reflexivity].
    cbn [PortfolioYield.pushAll app].
    rewrite (fold_left_filter PortfolioYield.tallySupply PortfolioYield.earns ps);
      [reflexivity|].
    intros t p Hp. unfold PortfolioYield.tallySupply.
    unfold PortfolioYield.earns in Hp. now rewrite Hp.
  - intros data. unfold PortfolioYield.calculateTotalValue.
    cbn [PortfolioYield.tokenBalances PortfolioYield.lpPositions
         PortfolioYield.lendingPositions].
    apply fold_left_filter.
    intros total p Hp. unfold PortfolioYield.addLending.
    unfold PortfolioYield.valued in Hp.
    apply orb_false_elim in Hp as [H1 H2]. now rewrite H1, H2.
Qed.



(** X22. [getPrice] is insensitive to letter case in every respect: two
    spellings of a symbol that differ only in the case of ASCII letters
    give the same result, the same upstream request and the same instance
    afterwards. *)
Theorem getPrice_case_insensitive {U : JS.Unicode} :
  forall (get : PriceOracle.upstream) (t t' : Z) (s s' : string)
         (o : PriceOracle.oracle),
    JS.asciiLower s = JS.asciiLower s' ->
    PriceOracle.getPrice get t t' s o = PriceOracle.getPrice get t t' s' o.
Proof.
  intros get t t' s s' o Hcase.
  assert (Hkey : PriceOracle.cacheKeyOf s = PriceOracle.cacheKeyOf s')
    by (apply cacheKeyOf_inj; now apply toLowerCase_variant).
  assert (Hid : PriceOracle.getCoinGeckoId s = PriceOracle.getCoinGeckoId s')
    by (now apply getCoinGeckoId_case_insensitive).
  unfold PriceOracle.getPrice, PriceOracle.fetchPriceFromCoinGecko.
  now rewrite Hkey, Hid.
Qed.

Lemma getPrice_case_insensitive_witness :
  PriceOracle.getPrice Spec.mockUpstream 0 0 "usdc" PriceOracle.new =
  PriceOracle.getPrice Spec.mockUpstream 0 0 "UsDc" PriceOracle.new.
Proof.
  apply getPrice_case_insensitive. reflexivity.
Defined.
